(** * Kapowarr: naming and renaming of volumes, issues and files

    A shallow embedding of [backend/naming.py] and of the settings of
    [backend/settings.py] that it reads, and the properties of the
    renaming engine and of the settings proved against it.

    Conventions of the embedding.
    - A Python [str] is a [string]; its characters are the code points
      below 256, for which the regular-expression class [\d] is exactly
      the ten digits [0] .. [9].
    - Paths follow [posixpath]: the separator is [/].
    - A Python exception is a value of [exn]; a computation that can raise
      and that reads or writes the process state is a function of type
      [M A], from a [world] to a [result A] and the world it leaves.
    - A table of the database is the list of its rows in row order. *)

From Stdlib Require Import ZArith QArith List Bool Ascii String Lia FinFun.
From Stdlib Require Import Sorted.
From Stdlib Require Import Decimal DecimalString DecimalNat DecimalZ.
From stdpp Require Import gmap strings.

Import ListNotations.
Local Open Scope string_scope.
Local Open Scope list_scope.

(** ** Python values *)

(** The values a column of the database, a setting or a formatting datum
    can hold. *)
Inductive pyval : Type :=
| PNone
| PInt (z : Z)
| PStr (s : string).

(** Python's truth value: [None], [0] and the empty string are false. *)
Definition truthy (v : pyval) : bool :=
  match v with
  | PNone => false
  | PInt z => negb (Z.eqb z 0)
  | PStr s => negb (String.eqb s "")
  end.

(** [v or d]. *)
Definition py_or (v d : pyval) : pyval := if truthy v then v else d.

(** [str(n)] for a natural number and for an integer. *)
Definition str_of_nat (n : nat) : string :=
  NilEmpty.string_of_uint (Nat.to_uint n).

Definition str_of_Z (z : Z) : string :=
  NilEmpty.string_of_int (Z.to_int z).

(** [str(v)], which is also [format(v, '')]. *)
Definition py_str (v : pyval) : string :=
  match v with
  | PNone => "None"
  | PInt z => str_of_Z z
  | PStr s => s
  end.

(** ** Exceptions and the result of a computation *)

Inductive exn : Type :=
| VolumeNotFound
| IssueNotFound
| InvalidSettingValue (msg : string)
| AttributeError
| TypeError
| ValueError (msg : string)
| KeyError (key : string)
| IndexError
| MoveFailure
| NotModelled.

Inductive result (A : Type) : Type :=
| Ok (a : A)
| Raise (e : exn).

Arguments Ok {A} a.
Arguments Raise {A} e.

(** ** Strings *)

Module Str.

(** [c in s]. *)
Fixpoint mem (c : ascii) (s : string) : bool :=
  match s with
  | EmptyString => false
  | String a s' => Ascii.eqb a c || mem c s'
  end.

(** [sub in s]: [sub] occurs in [s] as a substring. *)
Fixpoint contains (sub s : string) : bool :=
  String.prefix sub s ||
  match s with
  | EmptyString => false
  | String _ s' => contains sub s'
  end.

(** [s.endswith(c)] for a single character. *)
Fixpoint ends_with (c : ascii) (s : string) : bool :=
  match s with
  | EmptyString => false
  | String a EmptyString => Ascii.eqb a c
  | String _ s' => ends_with c s'
  end.

(** Every character of [s] is [c] (true of the empty string). *)
Fixpoint all_are (c : ascii) (s : string) : bool :=
  match s with
  | EmptyString => true
  | String a s' => Ascii.eqb a c && all_are c s'
  end.

(** [s.rstrip(c)]. *)
Fixpoint rstrip (c : ascii) (s : string) : string :=
  match s with
  | EmptyString => EmptyString
  | String a s' =>
      if Ascii.eqb a c && all_are c s' then EmptyString
      else String a (rstrip c s')
  end.

(** Split at the last occurrence of [c]: [rsplit c s = Some (h, t)] when
    [s = h ++ c ++ t] and [c] does not occur in [t]; [None] when [c] does
    not occur in [s] ([s.rfind(c) = -1]). *)
Fixpoint rsplit (c : ascii) (s : string) : option (string * string) :=
  match s with
  | EmptyString => None
  | String a s' =>
      match rsplit c s' with
      | Some (h, t) => Some (String a h, t)
      | None => if Ascii.eqb a c then Some (EmptyString, s') else None
      end
  end.

End Str.

(** ** [os.path] (posixpath) *)

Definition sep : ascii := "/"%char.
Definition extsep : ascii := "."%char.

(** [basename(p)]: what follows the last separator. *)
Definition basename (p : string) : string :=
  match Str.rsplit sep p with
  | Some (_, t) => t
  | None => p
  end.

(** [dirname(p)]: what precedes the last separator, with the separators at
    its end removed unless it consists of separators only. *)
Definition dirname (p : string) : string :=
  match Str.rsplit sep p with
  | Some (h, _) =>
      let head := h +:+ String sep EmptyString in
      if Str.all_are sep head then head else Str.rstrip sep head
  | None => ""
  end.

(** [join(a, b)]. *)
Definition join (a b : string) : string :=
  if String.prefix (String sep EmptyString) b then b
  else if String.eqb a "" || Str.ends_with sep a then a +:+ b
  else a +:+ String sep (b).

(** [splitext(p)]: the extension starts at the last dot of the last path
    component, unless only dots precede it in that component. *)
Definition splitext (p : string) : string * string :=
  let '(dir, base) :=
    match Str.rsplit sep p with
    | Some (h, t) => (h +:+ String sep EmptyString, t)
    | None => ("", p)
    end in
  match Str.rsplit extsep base with
  | Some (stem, e) =>
      if Str.all_are extsep stem then (p, "")
      else (dir +:+ stem, String extsep e)
  | None => (p, "")
  end.

(** ** Format strings: [string.Formatter().parse] and [str.format] *)

Module Fmt.

(** A replacement field [{name!conversion:spec}]. *)
Record field : Type := Field {
  field_name : string;
  format_spec : string;
  conversion : option ascii
}.

Definition is_brace (c : ascii) : bool :=
  Ascii.eqb c "{" || Ascii.eqb c "}".

(** The literal text up to the first brace, then that brace and what
    follows it, if there is one. *)
Fixpoint scan_brace (s : string) : string * option (ascii * string) :=
  match s with
  | EmptyString => ("", None)
  | String c r =>
      if is_brace c then ("", Some (c, r))
      else let '(l, x) := scan_brace r in (String c l, x)
  end.

(** The field name: the text up to the first [}], [:] or [!] outside
    square brackets, with that terminator and the rest. *)
Fixpoint scan_name (in_bracket : bool) (s : string)
  : result (string * ascii * string) :=
  match s with
  | EmptyString => Raise (ValueError "expected '}' before end of string")
  | String c r =>
      if in_bracket then
        match scan_name (negb (Ascii.eqb c "]")) r with
        | Ok (n, t, r') => Ok (String c n, t, r')
        | Raise e => Raise e
        end
      else if Ascii.eqb c "{" then
        Raise (ValueError "unexpected '{' in field name")
      else if Ascii.eqb c "}" || Ascii.eqb c ":" || Ascii.eqb c "!" then
        Ok ("", c, r)
      else
        match scan_name (Ascii.eqb c "[") r with
        | Ok (n, t, r') => Ok (String c n, t, r')
        | Raise e => Raise e
        end
  end.

(** The format specification: the text up to the brace that closes the
    field, nested braces counted; [count] is one less than the number of
    braces that are open. *)
Fixpoint scan_spec (count : nat) (s : string) : result (string * string) :=
  match s with
  | EmptyString => Raise (ValueError "unmatched '{' in format spec")
  | String c r =>
      if Ascii.eqb c "}" then
        match count with
        | O => Ok ("", r)
        | S count' =>
            match scan_spec count' r with
            | Ok (sp, r') => Ok (String c sp, r')
            | Raise e => Raise e
            end
        end
      else
        match scan_spec (if Ascii.eqb c "{" then S count else count) r with
        | Ok (sp, r') => Ok (String c sp, r')
        | Raise e => Raise e
        end
  end.

(** The field that starts after an opening brace. *)
Definition parse_field (s : string) : result (field * string) :=
  match scan_name false s with
  | Raise e => Raise e
  | Ok (name, c, r) =>
      if Ascii.eqb c "}" then Ok (Field name "" None, r)
      else if Ascii.eqb c "!" then
        match r with
        | EmptyString =>
            Raise (ValueError
              "end of string while looking for conversion specifier")
        | String conv EmptyString =>
            Raise (ValueError "unmatched '{' in format spec")
        | String conv (String c' r') =>
            if Ascii.eqb c' "}" then Ok (Field name "" (Some conv), r')
            else if Ascii.eqb c' ":" then
              match scan_spec 0 r' with
              | Ok (sp, r'') => Ok (Field name sp (Some conv), r'')
              | Raise e => Raise e
              end
            else Raise (ValueError
                   "expected ':' after conversion specifier")
        end
      else
        match scan_spec 0 r with
        | Ok (sp, r') => Ok (Field name sp None, r')
        | Raise e => Raise e
        end
  end.

(** One step of the parser on a non-empty input: a chunk of literal text,
    the replacement field that follows it, if any, and the rest. *)
Definition markup_next (s : string)
  : result (string * option field * string) :=
  match scan_brace s with
  | (lit, None) => Ok (lit, None, "")
  | (lit, Some (c, r)) =>
      match r with
      | EmptyString =>
          if Ascii.eqb c "}" then
            Raise (ValueError "Single '}' encountered in format string")
          else
            Raise (ValueError "Single '{' encountered in format string")
      | String c' r' =>
          if Ascii.eqb c c' then Ok (lit +:+ String c "", None, r')
          else if Ascii.eqb c "}" then
            Raise (ValueError "Single '}' encountered in format string")
          else
            match parse_field r with
            | Ok (f, r'') => Ok (lit, Some f, r'')
            | Raise e => Raise e
            end
      end
  end.

(** [list(Formatter().parse(s))]; every step consumes a character, so
    [String.length s] steps exhaust [s]. *)
Fixpoint parse_fuel (fuel : nat) (s : string)
  : result (list (string * option field)) :=
  match s with
  | EmptyString => Ok []
  | _ =>
      match fuel with
      | O => Raise NotModelled
      | S fuel' =>
          match markup_next s with
          | Raise e => Raise e
          | Ok (lit, f, r) =>
              match parse_fuel fuel' r with
              | Ok l => Ok ((lit, f) :: l)
              | Raise e => Raise e
              end
          end
      end
  end.

Definition parse (s : string) : result (list (string * option field)) :=
  parse_fuel (String.length s) s.

(** The first component of a field name: the text before the first [.]
    or [[], and whether something follows it. *)
Fixpoint first_part (s : string) : string * bool :=
  match s with
  | EmptyString => ("", false)
  | String c r =>
      if Ascii.eqb c "." || Ascii.eqb c "[" then ("", true)
      else let '(n, more) := first_part r in (String c n, more)
  end.

Definition is_digit (c : ascii) : bool :=
  (Ascii.leb "0" c && Ascii.leb c "9")%char.

Fixpoint all_digits (s : string) : bool :=
  match s with
  | EmptyString => true
  | String c r => is_digit c && all_digits r
  end.

(** The text a replacement field yields, with keyword arguments [kw] and
    no positional argument. A field with an attribute or an index, a
    conversion or a format specification is outside the model. *)
Definition render_field (kw : gmap string pyval) (f : field)
  : result string :=
  let '(key, more) := first_part (field_name f) in
  if all_digits key then Raise IndexError
  else
    match kw !! key with
    | None => Raise (KeyError key)
    | Some v =>
        if more then Raise NotModelled
        else
          match conversion f, format_spec f with
          | None, EmptyString => Ok (py_str v)
          | _, _ => Raise NotModelled
          end
    end.

(** [s.format] with the keyword arguments [kw]: the chunks are rendered
    from left to right, and the first error met is raised. *)
Fixpoint format_fuel (fuel : nat) (s : string) (kw : gmap string pyval)
  : result string :=
  match s with
  | EmptyString => Ok ""
  | _ =>
      match fuel with
      | O => Raise NotModelled
      | S fuel' =>
          match markup_next s with
          | Raise e => Raise e
          | Ok (lit, f, r) =>
              match match f with
                    | None => Ok ""
                    | Some f => render_field kw f
                    end with
              | Raise e => Raise e
              | Ok x =>
                  match format_fuel fuel' r kw with
                  | Ok y => Ok (lit +:+ x +:+ y)
                  | Raise e => Raise e
                  end
              end
          end
      end
  end.

Definition format (s : string) (kw : gmap string pyval) : result string :=
  format_fuel (String.length s) s kw.

End Fmt.

(** ** Regular expressions: the part of [re] the renaming uses *)

Module Re.

Inductive re : Type :=
| Void                      (* matches nothing *)
| Eps                       (* matches the empty string *)
| Chr (c : ascii)           (* one given character *)
| Digit                     (* \d *)
| Cat (r1 r2 : re)          (* r1 r2 *)
| Alt (r1 r2 : re)          (* r1 | r2 *)
| Star (r : re).            (* r* *)

(** [r?] and [r+]. *)
Definition Opt (r : re) : re := Alt Eps r.
Definition Plus (r : re) : re := Cat r (Star r).

(** The pattern that matches the text [s] and nothing else; it is what
    [escape(s)] compiles to. *)
Fixpoint escape (s : string) : re :=
  match s with
  | EmptyString => Eps
  | String c s' => Cat (Chr c) (escape s')
  end.

(** The anchor [$] as the last item of a pattern: the end of the text, or
    the line feed that ends the text. *)
Definition Dollar : re := Opt (Chr "010"%char).

Fixpoint nullable (r : re) : bool :=
  match r with
  | Void => false
  | Eps => true
  | Chr _ => false
  | Digit => false
  | Cat r1 r2 => nullable r1 && nullable r2
  | Alt r1 r2 => nullable r1 || nullable r2
  | Star _ => true
  end.

(** The derivative of [r] by the character [a]: what [r] can still match
    once [a] is read. *)
Fixpoint deriv (a : ascii) (r : re) : re :=
  match r with
  | Void => Void
  | Eps => Void
  | Chr c => if Ascii.eqb a c then Eps else Void
  | Digit => if Fmt.is_digit a then Eps else Void
  | Cat r1 r2 =>
      if nullable r1 then Alt (Cat (deriv a r1) r2) (deriv a r2)
      else Cat (deriv a r1) r2
  | Alt r1 r2 => Alt (deriv a r1) (deriv a r2)
  | Star r1 => Cat (deriv a r1) (Star r1)
  end.

(** [r] matches the whole of [s]. *)
Fixpoint fullmatch (r : re) (s : string) : bool :=
  match s with
  | EmptyString => nullable r
  | String a s' => fullmatch (deriv a r) s'
  end.

(** The language of [r]. *)
Inductive lang : re -> string -> Prop :=
| lang_eps : lang Eps ""
| lang_chr c : lang (Chr c) (String c "")
| lang_digit c : Fmt.is_digit c = true -> lang Digit (String c "")
| lang_cat r1 r2 s1 s2 :
    lang r1 s1 -> lang r2 s2 -> lang (Cat r1 r2) (s1 +:+ s2)
| lang_alt_l r1 r2 s : lang r1 s -> lang (Alt r1 r2) s
| lang_alt_r r1 r2 s : lang r2 s -> lang (Alt r1 r2) s
| lang_star_nil r : lang (Star r) ""
| lang_star_cons r s1 s2 :
    lang r s1 -> lang (Star r) s2 -> lang (Star r) (s1 +:+ s2).

End Re.

(** ** The database *)

(** A row of [volumes]. *)
Record volume_row : Type := {
  volumes_id : Z;
  volumes_comicvine_id : pyval;
  volumes_title : pyval;
  volumes_year : pyval;
  volumes_publisher : pyval;
  volumes_volume_number : pyval;
  volumes_root_folder : Z;
  volumes_folder : pyval
}.

(** A row of [issues]; the calculated issue number is a number that is
    only compared and ordered. *)
Record issue_row : Type := {
  issues_id : Z;
  issues_volume_id : Z;
  issues_comicvine_id : pyval;
  issues_issue_number : pyval;
  issues_calculated_issue_number : Q;
  issues_title : pyval;
  issues_date : pyval
}.

Record file_row : Type := {
  files_id : Z;
  files_filepath : string
}.

(** A row of [issues_files]: the file holds the issue. *)
Record issue_file_row : Type := {
  issues_files_file_id : Z;
  issues_files_issue_id : Z
}.

Record root_folder_row : Type := {
  root_folders_id : Z;
  root_folders_folder : string
}.

Record database : Type := {
  volumes : list volume_row;
  issues : list issue_row;
  files : list file_row;
  issues_files : list issue_file_row;
  root_folders : list root_folder_row;
  config : list (string * pyval)
}.

(** [UPDATE volumes SET folder = ? WHERE id = ?]. *)
Definition update_volume_folder (folder : string) (id : Z) (db : database)
  : database :=
  {| volumes :=
       map (fun v =>
              if Z.eqb (volumes_id v) id then
                {| volumes_id := volumes_id v;
                   volumes_comicvine_id := volumes_comicvine_id v;
                   volumes_title := volumes_title v;
                   volumes_year := volumes_year v;
                   volumes_publisher := volumes_publisher v;
                   volumes_volume_number := volumes_volume_number v;
                   volumes_root_folder := volumes_root_folder v;
                   volumes_folder := PStr folder |}
              else v) (volumes db);
     issues := issues db;
     files := files db;
     issues_files := issues_files db;
     root_folders := root_folders db;
     config := config db |}.

(** The row of a file, with the path [after] if its path is [before]. *)
Definition set_path (after before : string) (f : file_row) : file_row :=
  if String.eqb (files_filepath f) before then
    {| files_id := files_id f; files_filepath := after |}
  else f.

(** [UPDATE files SET filepath = ? WHERE filepath = ?]. *)
Definition update_filepath (after before : string) (db : database)
  : database :=
  {| volumes := volumes db;
     issues := issues db;
     files := map (set_path after before) (files db);
     issues_files := issues_files db;
     root_folders := root_folders db;
     config := config db |}.

(** ** The file system *)

(** The regular files and the directories that exist, each by its path;
    a path denotes the entry stored under the very same text. *)
Record filesystem : Type := {
  fs_files : list string;
  fs_dirs : list string
}.

Definition isfile (fs : filesystem) (p : string) : bool :=
  existsb (String.eqb p) (fs_files fs).

Definition isdir (fs : filesystem) (p : string) : bool :=
  existsb (String.eqb p) (fs_dirs fs).

(** [listdir(d)]: the names of the entries whose parent is [d]. *)
Definition listdir (fs : filesystem) (d : string) : list string :=
  map basename
    (List.filter
       (fun p => String.eqb (dirname p) d && negb (String.eqb (basename p) ""))
       (fs_files fs ++ fs_dirs fs)).

(** ** The state of the process and computations on it *)

Record world : Type := {
  w_db : database;
  w_fs : filesystem;
  (** [Settings.cache], the dictionary shared by all instances *)
  w_cache : gmap string pyval
}.

Definition M (A : Type) : Type := world -> result A * world.

Definition ret {A} (a : A) : M A := fun w => (Ok a, w).

Definition raise {A} (e : exn) : M A := fun w => (Raise e, w).

Definition bind {A B} (m : M A) (k : A -> M B) : M B :=
  fun w =>
    match m w with
    | (Ok a, w') => k a w'
    | (Raise e, w') => (Raise e, w')
    end.

Notation "'let*' x ':=' m 'in' k" := (bind m (fun x => k))
  (at level 10, x name, m at level 100, k at level 200).

Definition lift {A} (r : result A) : M A := fun w => (r, w).

Definition get_db : M database := fun w => (Ok (w_db w), w).

Definition get_fs : M filesystem := fun w => (Ok (w_fs w), w).

Definition set_db (db : database) : M unit :=
  fun w => (Ok tt, {| w_db := db; w_fs := w_fs w; w_cache := w_cache w |}).

Definition set_fs (fs : filesystem) : M unit :=
  fun w => (Ok tt, {| w_db := w_db w; w_fs := fs; w_cache := w_cache w |}).

(** [for x in l: body(x)], an accumulator threaded through. *)
Fixpoint for_each {A S} (l : list A) (body : S -> A -> M S) (s : S) : M S :=
  match l with
  | [] => ret s
  | x :: l' => let* s' := body s x in for_each l' body s'
  end.

(** ** [backend/settings.py] *)

(** [dict(rows)] for rows of two columns: a later row overrides. *)
Definition dict_of_rows (rows : list (string * pyval)) : gmap string pyval :=
  fold_left (fun m kv => <[fst kv := snd kv]> m) rows ∅.

(** [Settings().get_settings()]: the cache is filled from the table
    [config] when it is empty, and returned. *)
Definition get_settings : M (gmap string pyval) :=
  fun w =>
    let cache :=
      if decide (w_cache w = ∅)
      then dict_of_rows (config (w_db w)) ∪ w_cache w
      else w_cache w in
    (Ok cache, {| w_db := w_db w; w_fs := w_fs w; w_cache := cache |}).

(** [d[key]]. *)
Definition getitem (d : gmap string pyval) (key : string) : M pyval :=
  match d !! key with
  | Some v => ret v
  | None => raise (KeyError key)
  end.

(** [format.format( **formatting_data)] for a setting [format]. *)
Definition str_format (format : pyval) (formatting_data : gmap string pyval)
  : M string :=
  match format with
  | PStr s => lift (Fmt.format s formatting_data)
  | _ => raise AttributeError
  end.

(** ** [backend/naming.py]: name generation *)

Definition formatting_keys : list string :=
  [ "series_name"; "clean_series_name"; "volume_number"; "comicvine_id";
    "year"; "publisher" ].

Definition issue_formatting_keys : list string :=
  formatting_keys ++
  [ "issue_comicvine_id"; "issue_number"; "issue_title";
    "issue_release_date" ].

Definition Unknown : pyval := PStr "Unknown".

(** [if issue_id:] for an optional integer. *)
Definition given (issue_id : option Z) : bool :=
  match issue_id with
  | Some z => negb (Z.eqb z 0)
  | None => false
  end.

(** The clean title of a volume: [title.startswith] needs a string. *)
Definition clean_title_of (title : pyval) : result pyval :=
  match title with
  | PStr t =>
      if String.prefix "The " t then Ok (PStr (t +:+ ", The"))
      else if String.prefix "A " t then Ok (PStr (t +:+ ", A"))
      else Ok (py_or title Unknown)
  | _ => Raise AttributeError
  end.

Definition _get_formatting_data (volume_id : Z) (issue_id : option Z)
  : M (gmap string pyval) :=
  let* db := get_db in
  match List.find (fun v => Z.eqb (volumes_id v) volume_id) (volumes db) with
  | None => raise VolumeNotFound
  | Some volume_data =>
      let* clean_title := lift (clean_title_of (volumes_title volume_data)) in
      let formatting_data : gmap string pyval :=
        <["publisher" := py_or (volumes_publisher volume_data) Unknown]>
        (<["year" := py_or (volumes_year volume_data) Unknown]>
        (<["comicvine_id" :=
             py_or (volumes_comicvine_id volume_data) Unknown]>
        (<["volume_number" :=
             py_or (volumes_volume_number volume_data) Unknown]>
        (<["clean_series_name" := clean_title]>
        (<["series_name" := py_or (volumes_title volume_data) Unknown]>
         ∅))))) in
      if given issue_id then
        match List.find
                (fun i => Z.eqb (issues_id i) (default 0%Z issue_id))
                (issues db) with
        | None => raise IssueNotFound
        | Some issue_data =>
            ret
              (<["issue_release_date" :=
                   py_or (issues_date issue_data) Unknown]>
              (<["issue_title" := py_or (issues_title issue_data) Unknown]>
              (<["issue_number" :=
                   py_or (issues_issue_number issue_data) Unknown]>
              (<["issue_comicvine_id" :=
                   py_or (issues_comicvine_id issue_data) Unknown]>
               formatting_data))))
        end
      else ret formatting_data
  end.

Definition generate_volume_folder_name (volume_id : Z) : M string :=
  let* formatting_data := _get_formatting_data volume_id None in
  let* settings := get_settings in
  let* format := getitem settings "volume_folder_naming" in
  str_format format formatting_data.

Definition generate_tpb_name (volume_id : Z) : M string :=
  let* formatting_data := _get_formatting_data volume_id None in
  let* settings := get_settings in
  let* format := getitem settings "file_naming_tpb" in
  str_format format formatting_data.

(** [ORDER BY calculated_issue_number]: rows of equal number keep their
    order. *)
Fixpoint insert_by {A} (key : A -> Q) (x : A) (l : list A) : list A :=
  match l with
  | [] => [x]
  | y :: l' =>
      if Qle_bool (key x) (key y) then x :: l
      else y :: insert_by key x l'
  end.

Definition order_by {A} (key : A -> Q) (l : list A) : list A :=
  fold_right (insert_by key) [] l.

(** The formatting data of a file that covers a range of issues: those of
    the first issue, with the issue number overridden by the range. *)
Definition issue_range_formatting_data (volume_id : Z)
    (calculated_issue_number_start calculated_issue_number_end : Q)
  : M (gmap string pyval * pyval) :=
  let* db := get_db in
  match List.find
          (fun i => Z.eqb (issues_volume_id i) volume_id &&
                    Qeq_bool (issues_calculated_issue_number i)
                             calculated_issue_number_start)
          (issues db) with
  | None => raise TypeError
  | Some i =>
      let* formatting_data :=
        _get_formatting_data volume_id (Some (issues_id i)) in
      let* settings := get_settings in
      let* format := getitem settings "file_naming" in
      let* db := get_db in
      match
        order_by issues_calculated_issue_number
          (List.filter
             (fun i => Z.eqb (issues_volume_id i) volume_id &&
                       (Qeq_bool (issues_calculated_issue_number i)
                                 calculated_issue_number_start ||
                        Qeq_bool (issues_calculated_issue_number i)
                                 calculated_issue_number_end))
             (issues db))
      with
      | [issue_number_start; issue_number_end] =>
          ret (<["issue_number" :=
                   PStr (py_str (issues_issue_number issue_number_start) +:+
                         "-" +:+
                         py_str (issues_issue_number issue_number_end))]>
                 formatting_data,
               format)
      | _ => raise (ValueError "unpack")
      end
  end.

Definition generate_issue_range_name (volume_id : Z)
    (calculated_issue_number_start calculated_issue_number_end : Q)
  : M string :=
  let* data_and_format :=
    issue_range_formatting_data volume_id calculated_issue_number_start
      calculated_issue_number_end in
  str_format (snd data_and_format) (fst data_and_format).

Definition generate_issue_name (volume_id : Z) (issue_id : Z) : M string :=
  let* formatting_data := _get_formatting_data volume_id (Some issue_id) in
  let* settings := get_settings in
  let* format := getitem settings "file_naming" in
  str_format format formatting_data.

(** ** [backend/naming.py]: checking formats *)

(** [check_format(format, type)]; the raw string [r'\\'] is two
    backslashes. *)
Definition check_format (format type : string) : result unit :=
  match Fmt.parse format with
  | Raise e => Raise e
  | Ok parsed =>
      let keys :=
        flat_map (fun chunk =>
                    match snd chunk with
                    | Some f => [Fmt.field_name f]
                    | None => []
                    end) parsed in
      let check_keys (naming_keys : list string) :=
        match List.find
                (fun format_key =>
                   negb (existsb (String.eqb format_key) naming_keys))
                keys with
        | Some format_key =>
            Raise (InvalidSettingValue ("{" +:+ format_key +:+ "}"))
        | None => Ok tt
        end in
      if String.eqb type "file_naming" || String.eqb type "file_naming_tpb"
      then
        let naming_keys :=
          if String.eqb type "file_naming" then issue_formatting_keys
          else formatting_keys in
        if Str.contains "/" format || Str.contains "\\" format then
          Raise (InvalidSettingValue "Path seperator found")
        else check_keys naming_keys
      else check_keys formatting_keys
  end.

(** ** [backend/naming.py]: renaming *)

(** A planned rename, [{'before': ..., 'after': ...}]. *)
Record rename : Type := {
  before : string;
  after : string
}.

(** [escape(suggested_name) + r'( \(\d+\))?$']: the name, then optionally
    a space and a run of digits in brackets, then the end. The pattern of
    the second filter has a group that does not capture, [(?: ...)], and
    the same language. *)
Definition indexed_pattern (suggested_name : string) : Re.re :=
  Re.Cat (Re.escape suggested_name)
    (Re.Cat
       (Re.Opt (Re.Cat (Re.escape " (")
                  (Re.Cat (Re.Plus Re.Digit) (Re.escape ")"))))
       Re.Dollar).

(** [match(pattern, s)] is not [None]; the pattern ends with [$], so that
    a match at the start of [s] is a match of the whole of [s]. *)
Definition re_match (pattern : Re.re) (s : string) : bool :=
  Re.fullmatch pattern s.

(** [splitext(basename(current_name))[0]]: the name of the file that is
    renamed, without its folder and extension. *)
Definition basename_file (current_name : string) : string :=
  fst (splitext (basename current_name)).

(** The tuple [same_names]: the names of the planned files, then those of
    the files in the folder, when the folder exists ([listing] is its
    [listdir]), that the pattern matches. *)
Definition same_names (suggested_name current_name : string)
    (listing : option (list string)) (planned_names : list rename)
  : list string :=
  List.filter
    (fun r => re_match (indexed_pattern suggested_name) r)
    (map (fun r => fst (splitext (basename (after r)))) planned_names)
  ++
  match listing with
  | Some entries =>
      let basename_file := basename_file current_name in
      List.filter
        (fun f => negb (String.eqb f basename_file) &&
                  re_match (indexed_pattern suggested_name) f)
        (map (fun f => fst (splitext f)) entries)
  | None => []
  end.

(** [f"{suggested_name} ({i})"]. *)
Definition indexed (suggested_name : string) (i : nat) : string :=
  suggested_name +:+ " (" +:+ str_of_nat i +:+ ")".

Definition str_in (s : string) (l : list string) : bool :=
  existsb (String.eqb s) l.

(** The loop [while True], entered with the counter at [i]; [fuel] bounds
    the number of rounds. *)
Fixpoint index_loop (fuel : nat) (suggested_name : string)
    (names : list string) (i : nat) : option string :=
  match fuel with
  | O => None
  | S fuel' =>
      if Nat.eqb i 0 && negb (str_in suggested_name names) then
        Some suggested_name
      else if negb (Nat.eqb i 0) &&
              negb (str_in (indexed suggested_name i) names) then
        Some (indexed suggested_name i)
      else index_loop fuel' suggested_name names (S i)
  end.

(** What [same_name_indexing] returns for the tuple [names]; two rounds
    more than there are names always suffice. *)
Definition index_name (suggested_name : string) (names : list string)
  : option string :=
  match names with
  | [] => Some suggested_name
  | _ => index_loop (2 + List.length names) suggested_name names 0
  end.

(** The listing of [folder] if [isdir(folder)]. *)
Definition listing_of (fs : filesystem) (folder : string)
  : option (list string) :=
  if isdir fs folder then Some (listdir fs folder) else None.

Definition same_name_indexing (suggested_name current_name folder : string)
    (planned_names : list rename) : M string :=
  let* fs := get_fs in
  match index_name suggested_name
          (same_names suggested_name current_name (listing_of fs folder)
             planned_names) with
  | Some name => ret name
  | None => raise NotModelled
  end.

Definition file_row_eqb (f g : file_row) : bool :=
  Z.eqb (files_id f) (files_id g) &&
  String.eqb (files_filepath f) (files_filepath g).

(** [SELECT DISTINCT]: the first of equal rows is kept. *)
Fixpoint distinct (seen l : list file_row) : list file_row :=
  match l with
  | [] => []
  | f :: l' =>
      if existsb (file_row_eqb f) seen then distinct seen l'
      else f :: distinct (f :: seen) l'
  end.

(** The files linked to an issue of the volume. *)
Definition files_of_volume (db : database) (volume_id : Z) : list file_row :=
  distinct []
    (flat_map
       (fun f =>
          flat_map
            (fun l =>
               flat_map
                 (fun i =>
                    if Z.eqb (issues_id i) (issues_files_issue_id l) &&
                       Z.eqb (issues_files_file_id l) (files_id f) &&
                       Z.eqb (issues_volume_id i) volume_id
                    then [f] else [])
                 (issues db))
            (issues_files db))
       (files db)).

(** The files linked to the issue. *)
Definition files_of_issue (db : database) (issue_id : Z) : list file_row :=
  flat_map
    (fun f =>
       flat_map
         (fun l =>
            if Z.eqb (issues_files_file_id l) (files_id f) &&
               Z.eqb (issues_files_issue_id l) issue_id
            then [f] else [])
         (issues_files db))
    (files db).

(** The folder of the root folder of the volume. *)
Definition root_folder_of (db : database) (volume_id : Z) : option string :=
  hd_error
    (flat_map
       (fun rf =>
          flat_map
            (fun v =>
               if Z.eqb (volumes_root_folder v) (root_folders_id rf) &&
                  Z.eqb (volumes_id v) volume_id
               then [root_folders_folder rf] else [])
            (volumes db))
       (root_folders db)).

(** The issues the file covers: calculated issue number and id, in the
    order of the numbers. *)
Definition issues_of_file (db : database) (file_id : Z) : list (Q * Z) :=
  order_by fst
    (flat_map
       (fun i =>
          flat_map
            (fun l =>
               if Z.eqb (issues_id i) (issues_files_issue_id l) &&
                  Z.eqb (issues_files_file_id l) file_id
               then [(issues_calculated_issue_number i,
                      issues_files_issue_id l)]
               else [])
            (issues_files db))
       (issues db)).

(** [SELECT COUNT( * ) FROM issues WHERE volume_id = ?]. *)
Definition count_issues (db : database) (volume_id : Z) : nat :=
  List.length
    (List.filter (fun i => Z.eqb (issues_volume_id i) volume_id) (issues db)).

(** The name generated for a file that covers [issues], before the
    numbering of equal names. *)
Definition suggest_name (volume_id : Z) (issues_in_volume : nat)
    (issues : list (Q * Z)) : M string :=
  if Nat.ltb 1 (List.length issues) then
    if Nat.eqb (List.length issues) issues_in_volume then
      generate_tpb_name volume_id
    else
      generate_issue_range_name volume_id
        (fst (List.hd (0%Q, 0%Z) issues))
        (fst (List.last issues (0%Q, 0%Z)))
  else
    match issues with
    | [] => raise IndexError
    | i :: _ => generate_issue_name volume_id (snd i)
    end.

(** The name a file is given, without folder and extension: the name
    generated for the issues it covers, numbered if it is taken. *)
Definition new_name (volume_id : Z) (folder : string)
    (issues_in_volume : nat) (result : list rename) (file : file_row)
  : M string :=
  let* db := get_db in
  let issues := issues_of_file db (files_id file) in
  let* suggested_name := suggest_name volume_id issues_in_volume issues in
  same_name_indexing suggested_name (files_filepath file) folder result.

(** The body of the loop over the files: [result] is the plan so far. *)
Definition plan_file (volume_id : Z) (folder : string)
    (issues_in_volume : nat) (result : list rename) (file : file_row)
  : M (list rename) :=
  let* fs := get_fs in
  if negb (isfile fs (files_filepath file)) then ret result
  else
    let* suggested_name :=
      new_name volume_id folder issues_in_volume result file in
    let suggested_name :=
      join folder (suggested_name +:+ snd (splitext (files_filepath file))) in
    if negb (String.eqb (files_filepath file) suggested_name) then
      ret (result ++ [ {| before := files_filepath file;
                          after := suggested_name |} ])
    else ret result.

(** The files to rename and the folder they go to. *)
Definition files_and_folder (volume_id : Z) (issue_id : option Z)
  : M (list file_row * string) :=
  let* db := get_db in
  match issue_id with
  | None =>
      let file_infos := files_of_volume db volume_id in
      match root_folder_of db volume_id with
      | None => raise TypeError
      | Some root_folder =>
          let* name := generate_volume_folder_name volume_id in
          ret (file_infos, join root_folder name)
      end
  | Some issue_id =>
      let file_infos := files_of_issue db issue_id in
      match file_infos with
      | [] => raise IndexError
      | file :: _ => ret (file_infos, dirname (files_filepath file))
      end
  end.

Definition preview_mass_rename (volume_id : Z) (issue_id : option Z)
  : M (list rename) :=
  let* scope := files_and_folder volume_id issue_id in
  let* db := get_db in
  let issues_in_volume := count_issues db volume_id in
  for_each (fst scope)
    (plan_file volume_id (snd scope) issues_in_volume) [].

(** [if not issue_id and renames:] the folder of the volume becomes the
    folder of the first planned file. *)
Definition update_folder (volume_id : Z) (issue_id : option Z)
    (renames : list rename) : M unit :=
  match renames with
  | r :: _ =>
      if negb (given issue_id) then
        let* db := get_db in
        set_db (update_volume_folder (dirname (after r)) volume_id db)
      else ret tt
  | [] => ret tt
  end.

Section Applier.

(** [rename_file] of [backend/files.py], the move primitive: the file
    system it leaves, or [None] when it fails. *)
Variable rename_file : filesystem -> string -> string -> option filesystem.

(** The body of the loop over the plan: the move, then
    [UPDATE files SET filepath = ? WHERE filepath = ?]. *)
Definition apply_rename (_ : unit) (r : rename) : M unit :=
  let* fs := get_fs in
  match rename_file fs (before r) (after r) with
  | None => raise MoveFailure
  | Some fs' =>
      let* _ := set_fs fs' in
      let* db := get_db in
      set_db (update_filepath (after r) (before r) db)
  end.

Definition mass_rename (volume_id : Z) (issue_id : option Z) : M unit :=
  let* renames := preview_mass_rename volume_id issue_id in
  let* _ := update_folder volume_id issue_id renames in
  for_each renames apply_rename tt.

End Applier.

Module Files.

(** Modelled from the spec: [rename_file] of [backend/files.py], the
    move primitive [move(oldPath, newPath)] that succeeds or fails. It
    succeeds when [before] is a file: the file is then at [after], whose
    folder exists, and no longer at [before]. *)
Definition rename_file (fs : filesystem) (before after : string)
  : option filesystem :=
  if isfile fs before then
    Some {| fs_files :=
              after ::
              List.filter
                (fun p => negb (String.eqb p before) &&
                          negb (String.eqb p after))
                (fs_files fs);
            fs_dirs :=
              if isdir fs (dirname after) then fs_dirs fs
              else dirname after :: fs_dirs fs |}
  else None.

End Files.

(** ** [backend/settings.py]: changing the settings *)

Module Settings.

(** The exceptions [set_settings] and [reset_setting] raise: those of
    [exn], and those of [backend/custom_exceptions.py] for settings. *)
Inductive error : Type :=
| Exn (e : exn)
| InvalidSettingKey (key : string)
| InvalidSettingModification (key : string)
| InvalidSettingValue (key : string) (value : pyval)
| FolderNotFound.

Inductive outcome (A : Type) : Type :=
| Done (a : A)
| Failed (e : error).

Arguments Done {A} a.
Arguments Failed {A} e.

(** [Settings().get_settings(use_cache)]: with [use_cache] false, or an
    empty cache, the rows of [config] are read into the cache. *)
Definition get_settings (use_cache : bool) : M (gmap string pyval) :=
  fun w =>
    let cache :=
      if negb use_cache then dict_of_rows (config (w_db w)) ∪ w_cache w
      else if decide (w_cache w = ∅)
      then dict_of_rows (config (w_db w)) ∪ w_cache w
      else w_cache w in
    (Ok cache, {| w_db := w_db w; w_fs := w_fs w; w_cache := cache |}).

(** [c.isdigit()] for a character below 256: a decimal digit or one of
    the superscripts 1, 2 and 3. *)
Definition is_digit_char (c : ascii) : bool :=
  Fmt.is_digit c ||
  Nat.eqb (nat_of_ascii c) 178 || Nat.eqb (nat_of_ascii c) 179 ||
  Nat.eqb (nat_of_ascii c) 185.

(** [s.isdigit()]: [s] is not empty and all its characters are digits. *)
Fixpoint all_digit_chars (s : string) : bool :=
  match s with
  | EmptyString => true
  | String c s' => is_digit_char c && all_digit_chars s'
  end.

Definition isdigit (s : string) : bool :=
  negb (String.eqb s "") && all_digit_chars s.

(** [value.isdigit()]: only a string has the method. *)
Definition value_isdigit (value : pyval) : result bool :=
  match value with
  | PStr s => Ok (isdigit s)
  | _ => Raise AttributeError
  end.

(** [isdir(value)]: [None] is no path; an integer is a file descriptor,
    which the file system of the model does not have. *)
Definition value_isdir (fs : filesystem) (value : pyval) : result bool :=
  match value with
  | PStr s => Ok (isdir fs s)
  | PNone => Raise TypeError
  | PInt _ => Raise NotModelled
  end.

(** [check_format(value, key)]: the parser takes a string only. *)
Definition value_check_format (value : pyval) (key : string) : result unit :=
  match value with
  | PStr format => check_format format key
  | _ => Raise TypeError
  end.

(** [value == s] for a string [s]. *)
Definition value_is (value : pyval) (s : string) : bool :=
  match value with
  | PStr t => String.eqb t s
  | _ => false
  end.

(** [UPDATE config SET value = ? WHERE key = ?]; the column keeps the
    value as it is given. *)
Definition update_config (value : pyval) (key : string) (db : database)
  : database :=
  {| volumes := volumes db;
     issues := issues db;
     files := files db;
     issues_files := issues_files db;
     root_folders := root_folders db;
     config := map (fun row => if String.eqb (fst row) key
                               then (fst row, value) else row)
                   (config db) |}.

(** [cursor.executemany] of that update, for the settings in order. *)
Definition executemany (setting_changes : list (string * pyval))
    (db : database) : database :=
  fold_left (fun db change => update_config (snd change) (fst change) db)
    setting_changes db.

Definition set_config (db : database) (w : world) : world :=
  {| w_db := db; w_fs := w_fs w; w_cache := w_cache w |}.

(** The outcome of a computation of [M]. *)
Definition of_M {A : Type} (r : result A * world) : outcome A * world :=
  match r with
  | (Ok a, w) => (Done a, w)
  | (Raise e, w) => (Failed (Exn e), w)
  end.

(** [isinstance(value, str)]. *)
Definition is_str (value : pyval) : bool :=
  match value with
  | PStr _ => true
  | _ => false
  end.

(** [bytes.hex()]: two digits for a byte, the letters in lower case. *)
Definition hex_digit (n : nat) : ascii :=
  nth n (list_ascii_of_string "0123456789abcdef") "0"%char.

Fixpoint hex (bytes : list ascii) : string :=
  match bytes with
  | [] => ""
  | b :: bytes' =>
      String (hex_digit (nat_of_ascii b / 16))
        (String (hex_digit (nat_of_ascii b mod 16)) (hex bytes'))
  end.

(** [Settings().generate_api_key()], for the bytes [random] that
    [urandom(16)] returns. *)
Definition generate_api_key (random : list ascii) (w : world)
  : outcome (gmap string pyval) * world :=
  of_M (get_settings false
          (set_config (update_config (PStr (hex random)) "api_key" (w_db w))
                      w)).

Section Defaults.

(** [folder_path('temp_downloads')] and [__DATABASE_VERSION__], of
    [backend/files.py] and [backend/db.py]. *)
Variable temp_downloads : string.
Variable database_version : pyval.

Definition default_settings : list (string * pyval) :=
  [ ("host", PStr "0.0.0.0");
    ("port", PInt 5656);
    ("comicvine_api_key", PStr "");
    ("auth_password", PStr "");
    ("volume_folder_naming",
     PStr ("{series_name}" +:+ String sep "Volume {volume_number} ({year})"));
    ("file_naming",
     PStr "{series_name} ({year}) Volume {volume_number} Issue {issue_number}");
    ("file_naming_tpb",
     PStr "{series_name} ({year}) Volume {volume_number} TPB");
    ("download_folder", PStr temp_downloads);
    ("log_level", PStr "info");
    ("database_version", database_version) ].

(** [key in default_settings]. *)
Definition is_default_key (key : string) : bool :=
  existsb (String.eqb key) (map fst default_settings).

(** The tests of one round of the loop of [set_settings]: the exception
    raised for the setting, or [None] when it is kept. *)
Definition check_setting (fs : filesystem) (key : string) (value : pyval)
  : option error :=
  match (if String.eqb key "port" then value_isdigit value else Ok true) with
  | Raise e => Some (Exn e)
  | Ok false => Some (InvalidSettingValue key value)
  | Ok true =>
      if String.eqb key "api_key" then Some (InvalidSettingModification key)
      else
        match (if String.eqb key "download_folder"
               then value_isdir fs value else Ok true) with
        | Raise e => Some (Exn e)
        | Ok false => Some FolderNotFound
        | Ok true =>
            if String.eqb key "volume_folder_naming" ||
               String.eqb key "file_naming" ||
               String.eqb key "file_naming_tpb"
            then
              match value_check_format value key with
              | Raise e => Some (Exn e)
              | Ok _ => None
              end
            else if String.eqb key "log_level" &&
                    negb (existsb (value_is value) ["info"; "debug"])
            then Some (InvalidSettingValue key value)
            else if negb (is_default_key key)
            then Some (InvalidSettingKey key)
            else None
        end
  end.

(** The loop over [settings.items()]: the first exception raised. *)
Fixpoint check_settings (fs : filesystem) (settings : list (string * pyval))
  : option error :=
  match settings with
  | [] => None
  | (key, value) :: settings' =>
      match check_setting fs key value with
      | Some e => Some e
      | None => check_settings fs settings'
      end
  end.

(** [Settings().set_settings(settings)], the dictionary given as the list
    of its items. The level of logging, set by [set_log_level], is no part
    of the state; the last line of the method logs [s[1] + "->" + s[0]]
    for every change, which needs every value to be a string. *)
Definition set_settings (settings : list (string * pyval)) (w : world)
  : outcome (gmap string pyval) * world :=
  match check_settings (w_fs w) settings with
  | Some e => (Failed e, w)
  | None =>
      let result :=
        match settings with
        | [] => get_settings true w
        | _ =>
            get_settings false
              (set_config (executemany settings (w_db w)) w)
        end in
      if forallb (fun change => is_str (snd change)) settings
      then of_M result
      else (Failed (Exn TypeError), snd result)
  end.

(** [default_settings[key]]. *)
Definition default_of (key : string) : option pyval :=
  option_map snd
    (List.find (fun row => String.eqb (fst row) key) default_settings).

(** [Settings().reset_setting(key)]. *)
Definition reset_setting (key : string) (w : world)
  : outcome (gmap string pyval) * world :=
  match default_of key with
  | None => (Failed (InvalidSettingKey key), w)
  | Some value =>
      of_M (get_settings false
              (set_config (update_config value key (w_db w)) w))
  end.

End Defaults.

End Settings.

(** * Predicates of the properties *)

(** An error of the parser of format strings is a [ValueError]. *)
Definition value_error (e : exn) : Prop := exists msg, e = ValueError msg.

(** [name] is [suggested_name], optionally followed by a space and a
    non-empty run of digits in brackets, optionally followed by a final
    line feed: the names the pattern of [same_name_indexing] matches. *)
Definition numbered (suggested_name name : string) : Prop :=
  exists index nl,
    name = suggested_name +:+ index +:+ nl /\
    (index = "" \/
     exists d, d <> "" /\ Fmt.all_digits d = true /\
               index = " (" +:+ d +:+ ")") /\
    (nl = "" \/ nl = String "010"%char "").

(** A name that, put before the extension [ext] of a file, is one
    component of a path and is read back from it: it has no separator and
    a character that is not a dot, and no dot at all when there is no
    extension. *)
Definition plain_name (name ext : string) : Prop :=
  Str.mem sep name = false /\
  Str.all_are extsep name = false /\
  (ext = "" -> Str.mem extsep name = false).

(** A row of [volumes] without its folder, the one column the renaming
    writes. *)
Definition forget_folder (v : volume_row) : volume_row :=
  {| volumes_id := volumes_id v;
     volumes_comicvine_id := volumes_comicvine_id v;
     volumes_title := volumes_title v;
     volumes_year := volumes_year v;
     volumes_publisher := volumes_publisher v;
     volumes_volume_number := volumes_volume_number v;
     volumes_root_folder := volumes_root_folder v;
     volumes_folder := PNone |}.

(** The settings [get_settings] returns in a state. *)
Definition settings_of (w : world) : gmap string pyval :=
  if decide (w_cache w = ∅)
  then dict_of_rows (config (w_db w)) ∪ w_cache w
  else w_cache w.

(** What the generation of names reads of a state. *)
Definition naming_view (w : world)
  : list volume_row * list issue_row * gmap string pyval :=
  (map forget_folder (volumes (w_db w)), issues (w_db w), settings_of w).

(** [w'] is [w] but for the cache, and gives the same settings. *)
Definition steady (w w' : world) : Prop :=
  w_db w' = w_db w /\ w_fs w' = w_fs w /\ settings_of w' = settings_of w.

(** A computation that leaves the state steady, and whose result is
    determined by what the generation of names reads of the state. *)
Definition reads_naming {A : Type} (m : M A) : Prop :=
  (forall w, steady w (snd (m w))) /\
  (forall w1 w2, naming_view w1 = naming_view w2 ->
                 fst (m w1) = fst (m w2)).


(** The order of [ORDER BY]: [x] has a key not greater than that of [y]. *)
Definition key_le {A : Type} (key : A -> Q) (x y : A) : Prop :=
  Qle (key x) (key y).

(** The names of the fields of a parsed format, [keys] in [check_format]. *)
Definition field_names (parsed : list (string * option Fmt.field))
  : list string :=
  flat_map (fun chunk =>
              match snd chunk with
              | Some f => [Fmt.field_name f]
              | None => []
              end) parsed.

(** The vocabulary [check_format] allows for a kind of format. *)
Definition naming_keys_of (type : string) : list string :=
  if String.eqb type "file_naming" then issue_formatting_keys
  else formatting_keys.

(** The kinds of format that name a file. *)
Definition names_file (type : string) : bool :=
  String.eqb type "file_naming" || String.eqb type "file_naming_tpb".


(** What [set_settings] asks of a setting: the key is one of the default
    settings, the port is a string of digits, the download folder is a
    folder that exists, a naming format passes [check_format] for its
    kind, and the level of logging is [info] or [debug]. *)
Definition valid_setting (keys : list string) (fs : filesystem)
    (key : string) (value : pyval) : Prop :=
  In key keys /\
  (key = "port" -> exists s, value = PStr s /\ Settings.isdigit s = true) /\
  (key = "download_folder" ->
   exists s, value = PStr s /\ isdir fs s = true) /\
  (key = "volume_folder_naming" \/ key = "file_naming" \/
   key = "file_naming_tpb" ->
   exists s, value = PStr s /\ check_format s key = Ok tt) /\
  (key = "log_level" -> value = PStr "info" \/ value = PStr "debug").

(** The row of [config] once the settings [changes] are written. *)
Definition written (changes : list (string * pyval)) (row : string * pyval)
  : string * pyval :=
  fold_left (fun row change => if String.eqb (fst row) (fst change)
                               then (fst row, snd change) else row)
    changes row.


(** The entry [r] of a plan for the files [file_infos], computed in the
    state [w] for the folder [folder] after the entries [earlier]: it
    renames a file that exists to the name generated for the issues the
    file covers, or to that name with a number, in [folder] and with the
    extension of the file; the path is a new path; the name is that of no
    earlier entry, and of no entry of the folder other than one with the
    name of the file itself. *)
Definition planned (volume_id : Z) (w : world) (folder : string)
    (file_infos : list file_row) (earlier : list rename) (r : rename)
  : Prop :=
  exists file s name,
    In file file_infos /\
    before r = files_filepath file /\
    isfile (w_fs w) (before r) = true /\
    fst (suggest_name volume_id (count_issues (w_db w) volume_id)
           (issues_of_file (w_db w) (files_id file)) w) = Ok s /\
    (name = s \/ exists N, 1 <= N /\ name = indexed s N) /\
    after r = join folder (name +:+ snd (splitext (before r))) /\
    after r <> before r /\
    (forall r0, In r0 earlier -> basename_file (after r0) <> name) /\
    (isdir (w_fs w) folder = true ->
     forall entry, In entry (listdir (w_fs w) folder) ->
                   fst (splitext entry) = name ->
                   name = basename_file (before r)).

(** Every entry of the plan is planned after those before it. *)
Definition plan_ok (volume_id : Z) (w : world) (folder : string)
    (file_infos : list file_row) (plan : list rename) : Prop :=
  forall earlier r later,
    plan = earlier ++ r :: later ->
    planned volume_id w folder file_infos earlier r.

(** The rows of [volumes] once [mass_rename] has written the folder of the
    volume: the folder of the first entry of the plan, when the whole
    volume is renamed and something is planned. *)
Definition volumes_after (volume_id : Z) (issue_id : option Z)
    (plan : list rename) (db : database) : list volume_row :=
  match plan with
  | r :: _ =>
      if given issue_id then volumes db
      else volumes (update_volume_folder (dirname (after r)) volume_id db)
  | [] => volumes db
  end.

(** The row [f'] of a file is the row [f] with another path, and the same
    path unless the path is among [befores]. *)
Definition repathed_row (befores : list string) (f f' : file_row) : Prop :=
  files_id f' = files_id f /\
  (~ In (files_filepath f) befores -> f' = f).

(** * Example states *)

(** A destination folder [/c] that holds [Foo.cbz]. *)
Definition folder_with_Foo : world :=
  {| w_db := {| volumes := []; issues := []; files := [];
                issues_files := []; root_folders := []; config := [] |};
     w_fs := {| fs_files := ["/c/Foo.cbz"]; fs_dirs := ["/c"] |};
     w_cache := ∅ |}.

(** A plan that already moves a file to [/c/Foo.cbz], and the plan once a
    second file is to go to [/c/Foo (1).cbz]. *)
Definition plan_Foo : list rename :=
  [ {| before := "/in/a.cbz"; after := "/c/Foo.cbz" |} ].

Definition plan_Foo_1 : list rename :=
  plan_Foo ++ [ {| before := "/in/b.cbz"; after := "/c/Foo (1).cbz" |} ].

(** The naming settings of [default_settings] in [backend/settings.py],
    as rows of [config]. *)
Definition default_settings : list (string * pyval) :=
  [ ("volume_folder_naming",
     PStr ("{series_name}" +:+ String sep "Volume {volume_number} ({year})"));
    ("file_naming",
     PStr "{series_name} ({year}) Volume {volume_number} Issue {issue_number}");
    ("file_naming_tpb",
     PStr "{series_name} ({year}) Volume {volume_number} TPB") ].

(** A volume of id 1 with the given title. *)
Definition volume_1 (title : pyval) : volume_row :=
  {| volumes_id := 1;
     volumes_comicvine_id := PInt 2127;
     volumes_title := title;
     volumes_year := PInt 1963;
     volumes_publisher := PStr "Marvel";
     volumes_volume_number := PInt 1;
     volumes_root_folder := 1;
     volumes_folder := PNone |}.

(** A state whose only volume has the given title, and no issue. *)
Definition volume_titled (title : pyval) : world :=
  {| w_db := {| volumes := [volume_1 title]; issues := [];
                files := []; issues_files := [];
                root_folders := [ {| root_folders_id := 1;
                                     root_folders_folder := "/comics" |} ];
                config := default_settings |};
     w_fs := {| fs_files := []; fs_dirs := ["/comics"] |};
     w_cache := ∅ |}.

(** The datum under [key] of formatting data that were computed. *)
Definition datum (key : string) (r : result (gmap string pyval) * world)
  : result (option pyval) :=
  match fst r with
  | Ok formatting_data => Ok (formatting_data !! key)
  | Raise e => Raise e
  end.

(** Issue [n] of volume 1: id [10 + n], display number [str(n)]. *)
Definition issue_of_volume_1 (n : nat) : issue_row :=
  {| issues_id := 10 + Z.of_nat n;
     issues_volume_id := 1;
     issues_comicvine_id := PInt (100 + Z.of_nat n);
     issues_issue_number := PStr (str_of_nat n);
     issues_calculated_issue_number := inject_Z (Z.of_nat n);
     issues_title := PNone;
     issues_date := PStr "1963-03-01" |}.

Definition link (file_id issue_id : Z) : issue_file_row :=
  {| issues_files_file_id := file_id; issues_files_issue_id := issue_id |}.

(** A volume of five issues with three files: the first holds the issues
    1 and 2, the second all five, the third the issue 3. *)
Definition library : world :=
  {| w_db :=
       {| volumes := [volume_1 (PStr "Batman")];
          issues := map issue_of_volume_1 [1; 2; 3; 4; 5]%nat;
          files := [ {| files_id := 1; files_filepath := "/in/a.cbz" |};
                     {| files_id := 2; files_filepath := "/in/b.cbz" |};
                     {| files_id := 3; files_filepath := "/in/c.cbr" |} ];
          issues_files :=
            [ link 1 12; link 1 11;
              link 2 11; link 2 12; link 2 13; link 2 14; link 2 15;
              link 3 13 ];
          root_folders := [ {| root_folders_id := 1;
                               root_folders_folder := "/comics" |} ];
          config := default_settings |};
     w_fs := {| fs_files := ["/in/a.cbz"; "/in/b.cbz"; "/in/c.cbr"];
                fs_dirs := ["/in"; "/comics"] |};
     w_cache := ∅ |}.

(** A move primitive that fails on the file [/in/b.cbz]. *)
Definition failing_move (fs : filesystem) (before after : string)
  : option filesystem :=
  if String.eqb before "/in/b.cbz" then None
  else Files.rename_file fs before after.





(** A volume with an issue of id 0 and an issue of id 11, and one file
    that holds both. *)
Definition issue_zero : world :=
  {| w_db :=
       {| volumes := [volume_1 (PStr "Batman")];
          issues :=
            [ {| issues_id := 0;
                 issues_volume_id := 1;
                 issues_comicvine_id := PInt 100;
                 issues_issue_number := PStr "0";
                 issues_calculated_issue_number := 0;
                 issues_title := PNone;
                 issues_date := PNone |};
              issue_of_volume_1 1 ];
          files := [ {| files_id := 1; files_filepath := "/in/x.cbz" |} ];
          issues_files := [ link 1 0; link 1 11 ];
          root_folders := [ {| root_folders_id := 1;
                               root_folders_folder := "/comics" |} ];
          config := default_settings |};
     w_fs := {| fs_files := ["/in/x.cbz"]; fs_dirs := ["/in"; "/comics"] |};
     w_cache := ∅ |}.


(** A volume whose title has a dot, with one issue and one file that has
    no extension. *)
Definition no_extension : world :=
  {| w_db :=
       {| volumes := [volume_1 (PStr "Dr. Strange")];
          issues := [issue_of_volume_1 1];
          files := [ {| files_id := 1; files_filepath := "/in/scan" |} ];
          issues_files := [ link 1 11 ];
          root_folders := [ {| root_folders_id := 1;
                               root_folders_folder := "/comics" |} ];
          config := default_settings |};
     w_fs := {| fs_files := ["/in/scan"]; fs_dirs := ["/in"; "/comics"] |};
     w_cache := ∅ |}.

(** * Tactics *)

(** An equation between two results of different kinds does not hold. *)
Ltac absurd_eq := let H := fresh in intros H; discriminate H.

(** The cases of a key: one of the given strings, or none of them. *)
Ltac key_cases key :=
  repeat match goal with
         | |- context [String.eqb key ?k] =>
             destruct (String.eqb_spec key k); [subst key|]
         end.

(** A condition on a key other than the one at hand. *)
Ltac other_key :=
  let H := fresh in
  intros H;
  first [ discriminate H
        | destruct H as [H|[H|H]]; discriminate H ].

(** * Properties *)

#[local] Arguments String.append !s1 s2 : simpl nomatch.

(** ** Regular expressions: the matcher decides the language *)

Module ReFacts.
Import Re.

Lemma app_nil_r (s : string) : s +:+ "" = s.
Proof. induction s; simpl; congruence. Qed.

Lemma app_assoc (s t u : string) : (s +:+ t) +:+ u = s +:+ t +:+ u.
Proof. induction s; simpl; congruence. Qed.

Lemma app_eq_nil (s t : string) : s +:+ t = "" -> s = "" /\ t = "".
Proof. destruct s; simpl; [auto | discriminate]. Qed.

Lemma app_eq_cons (s t u : string) (a : ascii) :
s +:+ t = String a u ->
(s = "" /\ t = String a u) \/ (exists s', s = String a s' /\ u = s' +:+ t).
Proof.
destruct s as [|b s]; simpl; intros H.
- left; auto.
- right. inversion H; subst. eauto.
Qed.

Lemma lang_nullable r s : lang r s -> s = "" -> nullable r = true.
Proof.
induction 1; intros E; simpl; try discriminate; auto.
- apply app_eq_nil in E as [-> ->]. rewrite IHlang1, IHlang2; auto.
- rewrite IHlang; auto.
- rewrite IHlang; auto using orb_true_r.
Qed.

Lemma nullable_lang r : nullable r = true -> lang r "".
Proof.
induction r; simpl; intros H; try discriminate.
- constructor.
- apply andb_true_iff in H as [H1 H2].
  change "" with ("" +:+ ""). constructor; auto.
- apply orb_true_iff in H as [H|H]; [apply lang_alt_l | apply lang_alt_r]; auto.
- constructor.
Qed.

Lemma deriv_lang a r : forall s, lang (deriv a r) s -> lang r (String a s).
Proof.
induction r; simpl; intros s H.
- inversion H.
- inversion H.
- destruct (Ascii.eqb a c) eqn:E; inversion H; subst.
  apply Ascii.eqb_eq in E; subst. constructor.
- destruct (Fmt.is_digit a) eqn:E; inversion H; subst. constructor; auto.
- assert (Hcat : forall s, lang (Cat (deriv a r1) r2) s ->
                           lang (Cat r1 r2) (String a s)).
  { intros s' H'. inversion H'; subst.
    change (String a (s1 +:+ s2)) with (String a s1 +:+ s2).
    constructor; auto. }
  destruct (nullable r1) eqn:N; [|auto].
  inversion H; subst; [auto|].
  change (String a s) with ("" +:+ String a s).
  constructor; auto using nullable_lang.
- inversion H; subst; [apply lang_alt_l | apply lang_alt_r]; auto.
- inversion H; subst.
  change (String a (s1 +:+ s2)) with (String a s1 +:+ s2).
  constructor; auto.
Qed.

Lemma lang_deriv r x :
lang r x -> forall a s, x = String a s -> lang (deriv a r) s.
Proof.
induction 1; intros b u E; simpl; try discriminate.
- inversion E; subst. rewrite Ascii.eqb_refl. constructor.
- inversion E; subst. rewrite H. constructor.
- apply app_eq_cons in E as [[-> ->] | (s' & -> & ->)].
  + rewrite (lang_nullable _ _ H eq_refl).
    apply lang_alt_r; eauto.
  + destruct (nullable r1); [apply lang_alt_l|]; constructor; eauto.
- apply lang_alt_l; eauto.
- apply lang_alt_r; eauto.
- apply app_eq_cons in E as [[-> ->] | (s' & -> & ->)].
  + apply (IHlang2 b u eq_refl).
  + constructor; eauto.
Qed.

Lemma fullmatch_lang s : forall r, fullmatch r s = true <-> lang r s.
Proof.
induction s as [|a s IH]; intros r; simpl.
- split; [apply nullable_lang | intros; eapply lang_nullable; eauto].
- rewrite IH. split; [apply deriv_lang | intros; eapply lang_deriv; eauto].
Qed.

Lemma lang_cat r1 r2 x :
lang (Cat r1 r2) x <-> exists s1 s2, x = s1 +:+ s2 /\ lang r1 s1 /\ lang r2 s2.
Proof.
split.
- inversion 1; subst; eauto.
- intros (s1 & s2 & -> & H1 & H2). constructor; auto.
Qed.

Lemma lang_chr c x : lang (Chr c) x <-> x = String c "".
Proof. split; [inversion 1; auto | intros ->; constructor]. Qed.

Lemma lang_eps x : lang Eps x <-> x = "".
Proof. split; [inversion 1; auto | intros ->; constructor]. Qed.

Lemma lang_escape s x : lang (escape s) x <-> x = s.
Proof.
revert x; induction s as [|c s IH]; intros x; simpl.
- apply lang_eps.
- rewrite lang_cat. split.
  + intros (s1 & s2 & -> & H1 & H2).
    apply lang_chr in H1 as ->. apply IH in H2 as ->. reflexivity.
  + intros ->. exists (String c ""), s.
    split; [reflexivity|]. split; [constructor | apply IH; auto].
Qed.

Lemma lang_alt r1 r2 x : lang (Alt r1 r2) x <-> lang r1 x \/ lang r2 x.
Proof.
split.
- inversion 1; subst; auto.
- intros [H|H]; [apply lang_alt_l | apply lang_alt_r]; auto.
Qed.

Lemma lang_opt r x : lang (Opt r) x <-> x = "" \/ lang r x.
Proof. unfold Opt. rewrite lang_alt, lang_eps. tauto. Qed.

Lemma lang_star_digit x : lang (Star Digit) x <-> Fmt.all_digits x = true.
Proof.
split.
- remember (Star Digit) as r eqn:E.
  induction 1 as [| | | | | | |r' s1 s2 H1 _ H2 IH]; inversion E; subst; auto.
  inversion H1 as [| |c Hc| | | | |]; subst. simpl. rewrite Hc. auto.
- induction x as [|c x IH]; simpl; intros H.
  + constructor.
  + apply andb_true_iff in H as [H1 H2].
    change (String c x) with (String c "" +:+ x).
    constructor; [constructor|]; auto.
Qed.

Lemma lang_plus_digit x :
lang (Plus Digit) x <-> x <> "" /\ Fmt.all_digits x = true.
Proof.
unfold Plus. rewrite lang_cat. split.
- intros (s1 & s2 & -> & H1 & H2).
  inversion H1 as [| |c Hc| | | | |]; subst. simpl.
  apply lang_star_digit in H2. rewrite Hc, H2. split; [discriminate|auto].
- intros [Hne H]. destruct x as [|c x]; [congruence|]. simpl in H.
  apply andb_true_iff in H as [H1 H2].
  exists (String c ""), x. repeat split; [constructor; auto|].
  apply lang_star_digit; auto.
Qed.

Lemma lang_dollar x : lang Dollar x <-> x = "" \/ x = String "010"%char "".
Proof.
unfold Dollar. rewrite lang_opt. split.
- intros [->|H]; auto. apply lang_chr in H; auto.
- intros [->| ->]; auto. right; constructor.
Qed.

End ReFacts.

Lemma re_match_indexed_pattern (suggested_name name : string) :
  re_match (indexed_pattern suggested_name) name = true <->
  numbered suggested_name name.
Proof.
  unfold re_match, indexed_pattern, numbered.
  rewrite ReFacts.fullmatch_lang, ReFacts.lang_cat.
  split.
  - intros (s1 & s2 & -> & H1 & H2).
    apply ReFacts.lang_escape in H1 as ->.
    apply ReFacts.lang_cat in H2 as (index & nl & -> & Hi & Hn).
    apply ReFacts.lang_dollar in Hn.
    exists index, nl. split; [auto|]. split; [|auto].
    apply ReFacts.lang_opt in Hi as [->|Hi]; [auto|right].
    apply ReFacts.lang_cat in Hi as (a & b & -> & Ha & Hb).
    apply ReFacts.lang_escape in Ha as ->.
    apply ReFacts.lang_cat in Hb as (d & c & -> & Hd & Hc).
    apply ReFacts.lang_escape in Hc as ->.
    apply ReFacts.lang_plus_digit in Hd as [Hd1 Hd2].
    exists d. auto.
  - intros (index & nl & -> & Hi & Hn).
    exists suggested_name, (index +:+ nl). split; [auto|].
    split; [apply ReFacts.lang_escape; auto|].
    apply ReFacts.lang_cat. exists index, nl. split; [auto|].
    split; [|apply ReFacts.lang_dollar; auto].
    apply ReFacts.lang_opt.
    destruct Hi as [->|(d & Hd1 & Hd2 & ->)]; [auto|right].
    apply ReFacts.lang_cat. exists " (", (d +:+ ")"). split; [auto|].
    split; [apply ReFacts.lang_escape; auto|].
    apply ReFacts.lang_cat. exists d, ")". split; [auto|].
    split; [apply ReFacts.lang_plus_digit | apply ReFacts.lang_escape]; auto.
Qed.

(** ** Strings and decimal numerals *)

Lemma length_append (s t : string) :
  String.length (s +:+ t) = String.length s + String.length t.
Proof. induction s; simpl; auto. Qed.

Lemma append_inj_l (s t u : string) : s +:+ u = t +:+ u -> s = t.
Proof.
  revert t; induction s as [|a s IH]; intros [|b t] H; simpl in H; auto.
  - apply (f_equal String.length) in H. simpl in H.
    rewrite length_append in H. lia.
  - apply (f_equal String.length) in H. simpl in H.
    rewrite length_append in H. lia.
  - inversion H; subst. f_equal; auto.
Qed.

Lemma append_inj_r (s t u : string) : s +:+ t = s +:+ u -> t = u.
Proof. induction s; simpl; intros H; [auto | inversion H; auto]. Qed.

Lemma str_of_nat_inj (n m : nat) : str_of_nat n = str_of_nat m -> n = m.
Proof.
  unfold str_of_nat. intros H.
  apply (f_equal NilEmpty.uint_of_string) in H.
  rewrite !NilEmpty.usu in H. inversion H as [H'].
  apply (f_equal Nat.of_uint) in H'.
  rewrite !DecimalNat.Unsigned.of_to in H'. exact H'.
Qed.

Lemma indexed_inj (s : string) (n m : nat) : indexed s n = indexed s m -> n = m.
Proof.
  unfold indexed. intros H.
  apply append_inj_r in H. apply (append_inj_r " (") in H.
  apply append_inj_l in H. apply str_of_nat_inj; auto.
Qed.


Lemma str_in_In (s : string) (l : list string) : str_in s l = true <-> In s l.
Proof.
  unfold str_in. rewrite existsb_exists. split.
  - intros (x & Hx & E). apply String.eqb_eq in E; subst; auto.
  - intros H. exists s. split; [auto | apply String.eqb_refl].
Qed.

Lemma str_in_false (s : string) (l : list string) :
  str_in s l = false <-> ~ In s l.
Proof.
  rewrite <- str_in_In. destruct (str_in s l); split; congruence.
Qed.

(** ** The numbering of equal names *)

(** Among the first names numbered from 1, one more than there are names
    in [names], one is not in [names]. *)
Lemma free_index (s : string) (names : list string) :
  exists j, 1 <= j <= S (List.length names) /\ ~ In (indexed s j) names.
Proof.
  destruct (@List.Forall_Exists_dec nat (fun j => In (indexed s j) names)
              (fun j => in_dec string_dec (indexed s j) names)
              (seq 1 (S (List.length names)))) as [Hall | Hex].
  - exfalso.
    assert (Hnd : List.NoDup (map (indexed s) (seq 1 (S (List.length names))))).
    { apply Injective_map_NoDup; [|apply List.seq_NoDup].
      intros n m; apply indexed_inj. }
    apply List.NoDup_incl_length with (l' := names) in Hnd.
    + rewrite length_map, length_seq in Hnd. lia.
    + intros x Hx. apply in_map_iff in Hx as (j & <- & Hj).
      rewrite List.Forall_forall in Hall. auto.
  - apply List.Exists_exists in Hex as (j & Hj & Hfree).
    apply in_seq in Hj. exists j. split; [lia | auto].
Qed.

(** The loop, entered at a positive counter below which every numbered
    name is taken, ends at the least free number if it can reach one. *)
Lemma index_loop_least (s : string) (names : list string) :
  forall fuel i,
    1 <= i ->
    (exists j, i <= j < i + fuel /\ ~ In (indexed s j) names) ->
    exists N,
      i <= N /\
      index_loop fuel s names i = Some (indexed s N) /\
      ~ In (indexed s N) names /\
      forall M, i <= M < N -> In (indexed s M) names.
Proof.
  induction fuel as [|fuel IH]; intros i Hi (j & Hj & Hfree); [lia|].
  simpl. assert (Ei : Nat.eqb i 0 = false) by (apply Nat.eqb_neq; lia).
  rewrite Ei. simpl.
  destruct (str_in (indexed s i) names) eqn:Hin; simpl.
  - apply str_in_In in Hin.
    destruct (IH (S i)) as (N & HN & Hloop & HfreeN & Hbelow).
    + lia.
    + exists j. split; [|auto].
      assert (j <> i) by (intros ->; auto). lia.
    + exists N. repeat split; auto; [lia|].
      intros M HM. destruct (Nat.eq_dec M i) as [->|]; [auto|].
      apply Hbelow. lia.
  - apply str_in_false in Hin.
    exists i. repeat split; auto. intros M HM. lia.
Qed.

(** What [index_name] returns, by the membership of the candidates in
    [names] alone. *)
Lemma index_name_spec (s : string) (names : list string) :
  exists r,
    index_name s names = Some r /\
    (~ In s names -> r = s) /\
    (In s names ->
     exists N, 1 <= N /\ r = indexed s N /\ ~ In r names /\
               forall M, 1 <= M < N -> In (indexed s M) names).
Proof.
  unfold index_name. destruct names as [|x names'] eqn:E.
  - exists s. repeat split; auto. intros [].
  - rewrite <- E. clear E x names'.
    cbn [index_loop Nat.add Nat.eqb andb].
    destruct (str_in s names) eqn:Hin; cbn [negb andb].
    + apply str_in_In in Hin.
      destruct (free_index s names) as (j & Hj & Hfree).
      destruct (index_loop_least s names (S (List.length names)) 1)
        as (N & HN & Hloop & HfreeN & Hbelow); [lia| |].
      * exists j. split; [lia|auto].
      * exists (indexed s N). split; [exact Hloop|].
        split; [intros; contradiction|].
        intros _. exists N. repeat split; auto.
    + apply str_in_false in Hin. exists s. split; [auto|].
      split; [auto | intros; contradiction].
Qed.

Lemma same_name_indexing_eq (s cur folder : string) (planned : list rename)
    (w : world) :
  same_name_indexing s cur folder planned w =
  match index_name s
          (same_names s cur (listing_of (w_fs w) folder) planned) with
  | Some name => (Ok name, w)
  | None => (Raise NotModelled, w)
  end.
Proof.
  unfold same_name_indexing, bind, get_fs.
  destruct (index_name _ _); reflexivity.
Qed.

(** C3: the collision resolver returns the suggested name when it is not
    among the taken names, and otherwise the name with the least positive
    number that is not taken; with [Foo] taken by a file of the folder and
    by a planned entry, a second [Foo] becomes [Foo (1)] and a third
    [Foo (2)]. *)
Theorem same_name_indexing_least_free :
  (forall (suggested_name current_name folder : string)
          (planned_names : list rename) (w : world),
      let taken :=
        same_names suggested_name current_name
          (listing_of (w_fs w) folder) planned_names in
      exists name,
        same_name_indexing suggested_name current_name folder
          planned_names w = (Ok name, w) /\
        (~ In suggested_name taken -> name = suggested_name) /\
        (In suggested_name taken ->
         exists N, 1 <= N /\ name = indexed suggested_name N /\
                   ~ In name taken /\
                   forall M, 1 <= M < N ->
                             In (indexed suggested_name M) taken)) /\
  same_name_indexing "Foo" "/in/b.cbz" "/c" plan_Foo folder_with_Foo =
    (Ok "Foo (1)", folder_with_Foo) /\
  same_name_indexing "Foo" "/in/c.cbz" "/c" plan_Foo_1 folder_with_Foo =
    (Ok "Foo (2)", folder_with_Foo).
Proof.
  split; [|split; reflexivity].
  intros s cur folder planned w taken.
  destruct (index_name_spec s taken) as (name & Hname & Hfree & Htaken).
  exists name. rewrite same_name_indexing_eq. fold taken. rewrite Hname.
  auto.
Qed.

(** ** The names that count as taken *)

Lemma in_same_names (s cur : string) (listing : option (list string))
    (planned : list rename) (name : string) :
  In name (same_names s cur listing planned) <->
  numbered s name /\
  (In name (map (fun r => fst (splitext (basename (after r)))) planned) \/
   exists entries,
     listing = Some entries /\
     In name (map (fun f => fst (splitext f)) entries) /\
     name <> basename_file cur).
Proof.
  unfold same_names. rewrite in_app_iff, List.filter_In.
  rewrite re_match_indexed_pattern.
  destruct listing as [entries|].
  - rewrite List.filter_In, andb_true_iff, negb_true_iff.
    rewrite re_match_indexed_pattern, String.eqb_neq.
    split.
    + intros [[H1 H2] | (H1 & H2 & H3)]; split; auto.
      right. exists entries. auto.
    + intros (H & [H1 | (e & E & H1 & H2)]); [auto|].
      inversion E; subst. auto.
  - split.
    + intros [[H1 H2] | []]; auto.
    + intros (H & [H1 | (e & E & _)]); [auto | discriminate].
Qed.

(** C4, as amended: a name is taken exactly when the pattern matches it
    (the suggested name, optionally a space and a run of digits in
    brackets, optionally a final line feed) and it is the name of a
    planned file or of an entry of the existing folder other than the name
    of the file itself; [Foo (2) Bar] is never taken for [Foo]; and a file
    renamed to its own name, nothing planned, keeps that name. *)
Theorem same_names_numbered :
  (forall (suggested_name current_name : string)
          (listing : option (list string)) (planned_names : list rename)
          (name : string),
      In name (same_names suggested_name current_name listing planned_names)
      <->
      numbered suggested_name name /\
      (In name
          (map (fun r => fst (splitext (basename (after r)))) planned_names)
       \/
       exists entries,
         listing = Some entries /\
         In name (map (fun f => fst (splitext f)) entries) /\
         name <> basename_file current_name)) /\
  (forall (current_name : string) (listing : option (list string))
          (planned_names : list rename),
      ~ In "Foo (2) Bar"
          (same_names "Foo" current_name listing planned_names)) /\
  (forall (current_name folder : string) (w : world),
      same_name_indexing (basename_file current_name) current_name folder []
        w = (Ok (basename_file current_name), w)).
Proof.
  split; [exact in_same_names|]. split.
  - intros cur listing planned H.
    apply in_same_names in H as [H _].
    apply re_match_indexed_pattern in H. discriminate.
  - intros cur folder w.
    destruct (index_name_spec (basename_file cur)
                (same_names (basename_file cur) cur
                   (listing_of (w_fs w) folder) []))
      as (name & Hname & Hfree & _).
    rewrite same_name_indexing_eq, Hname.
    rewrite Hfree; [reflexivity|].
    intros H. apply in_same_names in H as (_ & [[] | (e & _ & _ & Hne)]).
    congruence.
Qed.

(** C4, as stated, fails: [Foo (0)] in the folder is taken for [Foo], and
    it is neither [Foo] nor [Foo (N)] for a positive [N]. *)
Lemma same_names_takes_zero :
  In "Foo (0)" (same_names "Foo" "/in/a.cbz" (Some ["Foo (0).cbz"]) []) /\
  "Foo (0)" <> "Foo" /\
  (forall N, 1 <= N -> "Foo (0)" <> indexed "Foo" N).
Proof.
  split; [simpl; auto|]. split; [discriminate|].
  intros N HN E. change "Foo (0)" with (indexed "Foo" 0) in E.
  apply indexed_inj in E. lia.
Qed.

(** ** The formatting data *)

(** The clean title of a title that starts with an article is the whole
    title followed by the article. *)
Lemma clean_title_of_article (t : string) :
  (String.prefix "The " t = true ->
   clean_title_of (PStr t) = Ok (PStr (t +:+ ", The"))) /\
  (String.prefix "The " t = false -> String.prefix "A " t = true ->
   clean_title_of (PStr t) = Ok (PStr (t +:+ ", A"))) /\
  (String.prefix "The " t = false -> String.prefix "A " t = false ->
   clean_title_of (PStr t) = Ok (py_or (PStr t) Unknown)).
Proof.
  unfold clean_title_of. repeat split; intros; 
    repeat match goal with H : _ = _ |- _ => rewrite H end; reflexivity.
Qed.

(** [v or 'Unknown'] is ['Unknown'] for [None], [0] and the empty
    string, and [v] otherwise. *)
Lemma py_or_Unknown (v : pyval) :
  py_or v Unknown =
  match v with
  | PNone => Unknown
  | PInt z => if Z.eqb z 0 then Unknown else v
  | PStr s => if String.eqb s "" then Unknown else v
  end.
Proof.
  unfold py_or. destruct v as [|z|s]; simpl; auto.
  - destruct (Z.eqb z 0); auto.
  - destruct (String.eqb s ""); auto.
Qed.

(** The data of a volume whose title is a string: every datum is the
    column, or ['Unknown'] when the column is missing or empty. *)
Lemma formatting_data_of_volume (volume_id : Z) (w : world)
    (volume_data : volume_row) (t : string) :
  List.find (fun v => Z.eqb (volumes_id v) volume_id) (volumes (w_db w)) =
    Some volume_data ->
  volumes_title volume_data = PStr t ->
  exists formatting_data clean_title,
    _get_formatting_data volume_id None w = (Ok formatting_data, w) /\
    clean_title_of (PStr t) = Ok clean_title /\
    formatting_data !! "series_name" = Some (py_or (PStr t) Unknown) /\
    formatting_data !! "clean_series_name" = Some clean_title /\
    formatting_data !! "volume_number" =
      Some (py_or (volumes_volume_number volume_data) Unknown) /\
    formatting_data !! "comicvine_id" =
      Some (py_or (volumes_comicvine_id volume_data) Unknown) /\
    formatting_data !! "year" =
      Some (py_or (volumes_year volume_data) Unknown) /\
    formatting_data !! "publisher" =
      Some (py_or (volumes_publisher volume_data) Unknown).
Proof.
  intros Hfind Htitle.
  unfold _get_formatting_data, bind, get_db. rewrite Hfind, Htitle.
  destruct (clean_title_of (PStr t)) as [clean_title|e] eqn:Hclean.
  - unfold lift, given, ret. eexists _, clean_title.
    split; [reflexivity|]. split; [reflexivity|].
    repeat split; by simplify_map_eq.
  - unfold clean_title_of in Hclean.
    destruct (String.prefix "The " t), (String.prefix "A " t); discriminate.
Qed.

(** The data of a volume whose title is [NULL] are not computed. *)
Lemma formatting_data_of_untitled (volume_id : Z) (issue_id : option Z)
    (w : world) (volume_data : volume_row) :
  List.find (fun v => Z.eqb (volumes_id v) volume_id) (volumes (w_db w)) =
    Some volume_data ->
  volumes_title volume_data = PNone ->
  _get_formatting_data volume_id issue_id w = (Raise AttributeError, w).
Proof.
  intros Hfind Htitle.
  unfold _get_formatting_data, bind, get_db. rewrite Hfind, Htitle.
  reflexivity.
Qed.

(** C1: the code keeps the article in front and appends it once more:
    the clean series name of [The Amazing Spider-Man] is
    [The Amazing Spider-Man, The], not [Amazing Spider-Man, The], and that
    of [A History] is [A History, A]; [Batman] is unchanged. *)
Theorem clean_series_name_keeps_article :
  datum "clean_series_name"
    (_get_formatting_data 1 None
       (volume_titled (PStr "The Amazing Spider-Man"))) =
    Ok (Some (PStr "The Amazing Spider-Man, The")) /\
  datum "clean_series_name"
    (_get_formatting_data 1 None (volume_titled (PStr "A History"))) =
    Ok (Some (PStr "A History, A")) /\
  datum "clean_series_name"
    (_get_formatting_data 1 None (volume_titled (PStr "Batman"))) =
    Ok (Some (PStr "Batman")).
Proof. repeat split; vm_compute; reflexivity. Qed.

(** C9: for a volume whose title is [NULL] the formatting data are not
    built, [None.startswith] raises; with an empty title the series names
    are ['Unknown']. *)
Theorem formatting_data_null_title :
  _get_formatting_data 1 None (volume_titled PNone) =
    (Raise AttributeError, volume_titled PNone) /\
  datum "series_name"
    (_get_formatting_data 1 None (volume_titled (PStr ""))) =
    Ok (Some (PStr "Unknown")) /\
  datum "clean_series_name"
    (_get_formatting_data 1 None (volume_titled (PStr ""))) =
    Ok (Some (PStr "Unknown")).
Proof. repeat split; vm_compute; reflexivity. Qed.

(** ** The parser of format strings ends *)

Module FmtFacts.
Import Fmt.

Lemma scan_brace_length (s lit : string) (c : ascii) (r : string) :
  scan_brace s = (lit, Some (c, r)) -> String.length r < String.length s.
Proof.
  revert lit; induction s as [|a s IH]; intros lit; simpl; [discriminate|].
  destruct (is_brace a).
  - intros H; inversion H; subst. lia.
  - destruct (scan_brace s) as [l x]. intros H; inversion H; subst.
    specialize (IH l eq_refl). lia.
Qed.

Lemma scan_name_ok (s : string) :
  forall b n t r, scan_name b s = Ok (n, t, r) ->
                  String.length r < String.length s.
Proof.
  induction s as [|a s IH]; intros b n t r; simpl; [discriminate|].
  destruct b.
  - destruct (scan_name _ s) as [[[n' t'] r']|e] eqn:E; [|discriminate].
    intros H; inversion H; subst. apply IH in E. lia.
  - destruct (Ascii.eqb a "{"); [discriminate|].
    destruct (Ascii.eqb a "}" || Ascii.eqb a ":" || Ascii.eqb a "!").
    + intros H; inversion H; subst. lia.
    + destruct (scan_name _ s) as [[[n' t'] r']|e] eqn:E; [|discriminate].
      intros H; inversion H; subst. apply IH in E. lia.
Qed.

Lemma scan_name_error (s : string) :
  forall b e, scan_name b s = Raise e -> value_error e.
Proof.
  induction s as [|a s IH]; intros b e; simpl.
  - intros H; inversion H. eexists; reflexivity.
  - destruct b.
    + destruct (scan_name _ s) as [[[n' t'] r']|e'] eqn:E; [discriminate|].
      intros H; inversion H; subst. eauto.
    + destruct (Ascii.eqb a "{");
        [intros H; inversion H; eexists; reflexivity|].
      destruct (Ascii.eqb a "}" || Ascii.eqb a ":" || Ascii.eqb a "!");
        [discriminate|].
      destruct (scan_name _ s) as [[[n' t'] r']|e'] eqn:E; [discriminate|].
      intros H; inversion H; subst. eauto.
Qed.

Lemma scan_spec_ok (s : string) :
  forall count sp r, scan_spec count s = Ok (sp, r) ->
                     String.length r < String.length s.
Proof.
  induction s as [|a s IH]; intros count sp r; simpl; [discriminate|].
  destruct (Ascii.eqb a "}").
  - destruct count as [|count].
    + intros H; inversion H; subst. lia.
    + destruct (scan_spec count s) as [[sp' r']|e] eqn:E; [|discriminate].
      intros H; inversion H; subst. apply IH in E. lia.
  - destruct (scan_spec _ s) as [[sp' r']|e] eqn:E; [|discriminate].
    intros H; inversion H; subst. apply IH in E. lia.
Qed.

Lemma scan_spec_error (s : string) :
  forall count e, scan_spec count s = Raise e -> value_error e.
Proof.
  induction s as [|a s IH]; intros count e; simpl.
  - intros H; inversion H. eexists; reflexivity.
  - destruct (Ascii.eqb a "}").
    + destruct count as [|count]; [discriminate|].
      destruct (scan_spec count s) as [[sp' r']|e'] eqn:E; [discriminate|].
      intros H; inversion H; subst. eauto.
    + destruct (scan_spec _ s) as [[sp' r']|e'] eqn:E; [discriminate|].
      intros H; inversion H; subst. eauto.
Qed.

Lemma parse_field_ok (s : string) (f : field) (r : string) :
  parse_field s = Ok (f, r) -> String.length r < String.length s.
Proof.
  unfold parse_field.
  destruct (scan_name false s) as [[[n t] r0]|e] eqn:E; [|discriminate].
  apply scan_name_ok in E.
  destruct (Ascii.eqb t "}"); [intros H; inversion H; subst; exact E|].
  destruct (Ascii.eqb t "!").
  - destruct r0 as [|conv [|c' r']]; try discriminate.
    destruct (Ascii.eqb c' "}");
      [intros H; inversion H; subst; simpl in E; lia|].
    destruct (Ascii.eqb c' ":"); [|discriminate].
    destruct (scan_spec 0 r') as [[sp r'']|e] eqn:E'; [|discriminate].
    intros H; inversion H; subst. apply scan_spec_ok in E'. simpl in E. lia.
  - destruct (scan_spec 0 r0) as [[sp r']|e] eqn:E'; [|discriminate].
    intros H; inversion H; subst. apply scan_spec_ok in E'. lia.
Qed.

Lemma parse_field_error (s : string) (e : exn) :
  parse_field s = Raise e -> value_error e.
Proof.
  unfold parse_field.
  destruct (scan_name false s) as [[[n t] r0]|e'] eqn:E.
  - destruct (Ascii.eqb t "}"); [discriminate|].
    destruct (Ascii.eqb t "!").
    + destruct r0 as [|conv [|c' r']];
        try (intros H; inversion H; eexists; reflexivity).
      destruct (Ascii.eqb c' "}"); [discriminate|].
      destruct (Ascii.eqb c' ":");
        [|intros H; inversion H; eexists; reflexivity].
      destruct (scan_spec 0 r') as [[sp r'']|e''] eqn:E'; [discriminate|].
      intros H; inversion H; subst. eapply scan_spec_error; eauto.
    + destruct (scan_spec 0 r0) as [[sp r']|e''] eqn:E'; [discriminate|].
      intros H; inversion H; subst. eapply scan_spec_error; eauto.
  - intros H; inversion H; subst. eapply scan_name_error; eauto.
Qed.

Lemma markup_next_ok (s lit : string) (f : option field) (r : string) :
  s <> "" -> markup_next s = Ok (lit, f, r) ->
  String.length r < String.length s.
Proof.
  intros Hs. unfold markup_next.
  destruct (scan_brace s) as [l [[c r0]|]] eqn:E.
  - apply scan_brace_length in E.
    destruct r0 as [|c' r']; [destruct (Ascii.eqb c "}"); discriminate|].
    destruct (Ascii.eqb c c');
      [intros H; inversion H; subst; simpl in E; lia|].
    destruct (Ascii.eqb c "}"); [discriminate|].
    destruct (parse_field (String c' r')) as [[f' r'']|e] eqn:E';
      [|discriminate].
    intros H; inversion H; subst. apply parse_field_ok in E'. lia.
  - intros H; inversion H; subst. destruct s; [congruence | simpl; lia].
Qed.

Lemma markup_next_error (s : string) (e : exn) :
  markup_next s = Raise e -> value_error e.
Proof.
  unfold markup_next.
  destruct (scan_brace s) as [l [[c r0]|]]; [|discriminate].
  destruct r0 as [|c' r'].
  - destruct (Ascii.eqb c "}"); intros H; inversion H; eexists; reflexivity.
  - destruct (Ascii.eqb c c'); [discriminate|].
    destruct (Ascii.eqb c "}");
      [intros H; inversion H; eexists; reflexivity|].
    destruct (parse_field (String c' r')) as [[f' r'']|e'] eqn:E';
      [discriminate|].
    intros H; inversion H; subst. eapply parse_field_error; eauto.
Qed.

Lemma parse_fuel_total (fuel : nat) :
  forall s, String.length s <= fuel ->
  (exists chunks, parse_fuel fuel s = Ok chunks) \/
  (exists msg, parse_fuel fuel s = Raise (ValueError msg)).
Proof.
  induction fuel as [|fuel IH]; intros s Hlen.
  - destruct s; [left; eexists; reflexivity | simpl in Hlen; lia].
  - destruct s as [|a s]; [left; eexists; reflexivity|].
    cbn [parse_fuel].
    destruct (markup_next (String a s)) as [[[lit f] r]|e] eqn:E.
    + apply markup_next_ok in E; [|discriminate].
      destruct (IH r) as [[l ->] | [msg ->]]; [lia| |]; eauto.
    + apply markup_next_error in E as [msg ->]. eauto.
Qed.

(** [Formatter().parse] returns the chunks of the format or raises a
    [ValueError]: the bound on its steps is never met. *)
Lemma parse_total (s : string) :
  (exists chunks, parse s = Ok chunks) \/
  (exists msg, parse s = Raise (ValueError msg)).
Proof. apply parse_fuel_total. apply Nat.le_refl. Qed.

End FmtFacts.

(** ** Checking formats *)

(** A format whose fields are well formed and that holds a slash, or two
    backslashes in a row, is refused for the names of files. *)
Lemma check_format_separator (format type : string)
    (parsed : list (string * option Fmt.field)) :
  Fmt.parse format = Ok parsed ->
  type = "file_naming" \/ type = "file_naming_tpb" ->
  Str.contains "/" format = true \/ Str.contains "\\" format = true ->
  check_format format type =
    Raise (InvalidSettingValue "Path seperator found").
Proof.
  intros Hparse Htype Hsep. unfold check_format. rewrite Hparse.
  assert (Ht : String.eqb type "file_naming" ||
               String.eqb type "file_naming_tpb" = true).
  { destruct Htype as [-> | ->]; reflexivity. }
  rewrite Ht.
  assert (Hs : Str.contains "/" format || Str.contains "\\" format = true).
  { destruct Hsep as [-> | ->]; auto using orb_true_r. }
  rewrite Hs. reflexivity.
Qed.

(** A format for the names of files that holds a slash is refused, as a
    path or, when a field of it is malformed, as a format. *)
Lemma check_format_slash (format type : string) :
  type = "file_naming" \/ type = "file_naming_tpb" ->
  Str.contains "/" format = true ->
  check_format format type =
    Raise (InvalidSettingValue "Path seperator found") \/
  exists msg, check_format format type = Raise (ValueError msg).
Proof.
  intros Htype Hsep.
  destruct (FmtFacts.parse_total format) as [[parsed Hp] | [msg Hp]].
  - left. eapply check_format_separator; eauto.
  - right. exists msg. unfold check_format. rewrite Hp. reflexivity.
Qed.

(** C2: a format with one backslash is accepted for both kinds of file
    names, the test being for two backslashes in a row; a slash or two
    backslashes are refused. *)
Theorem check_format_single_backslash :
  check_format "{series_name}\{year}" "file_naming" = Ok tt /\
  check_format "{series_name}\{year}" "file_naming_tpb" = Ok tt /\
  check_format "{series_name}\\{year}" "file_naming" =
    Raise (InvalidSettingValue "Path seperator found") /\
  check_format "{series_name}/{volume_number}" "file_naming" =
    Raise (InvalidSettingValue "Path seperator found").
Proof. repeat split; vm_compute; reflexivity. Qed.

(** ** The name of a range of issues *)

(** Without an issue of the volume at the first number, the name of a
    range is not generated: [fetchone()] is [None], and [None[0]] raises
    [TypeError]. *)
Lemma generate_issue_range_name_no_start (volume_id : Z) (first last : Q)
    (w : world) :
  (forall i, In i (issues (w_db w)) ->
             issues_volume_id i = volume_id ->
             ~ Qeq (issues_calculated_issue_number i) first) ->
  generate_issue_range_name volume_id first last w = (Raise TypeError, w).
Proof.
  intros Hnone.
  unfold generate_issue_range_name, issue_range_formatting_data, bind, get_db.
  destruct (List.find _ (issues (w_db w))) as [i|] eqn:Hfind; [|reflexivity].
  apply List.find_some in Hfind as [Hin Hi].
  apply andb_true_iff in Hi as [Hv Hc].
  apply Z.eqb_eq in Hv. apply Qeq_bool_iff in Hc.
  exfalso. eapply Hnone; eauto.
Qed.

(** C7: in the volume of five issues, numbered 1 to 5, the name of the
    range from 9 to 10 fails with [TypeError], not with [IssueNotFound],
    which is what the formatting data raise for an issue that is not
    there. *)
Theorem generate_issue_range_name_type_error :
  generate_issue_range_name 1 9 10 library = (Raise TypeError, library) /\
  _get_formatting_data 1 (Some 99%Z) library = (Raise IssueNotFound, library).
Proof. split; vm_compute; reflexivity. Qed.

(** ** The order of the issues a file covers *)

Section OrderBy.

Context {A : Type} (key : A -> Q).

Lemma in_insert_by (x y : A) (l : list A) :
  In y (insert_by key x l) -> y = x \/ In y l.
Proof.
  induction l as [|z l IH]; simpl.
  - intros [->|[]]; auto.
  - destruct (Qle_bool (key x) (key z)); simpl.
    + intros [->|H]; auto.
    + intros [->|H]; auto. destruct (IH H); auto.
Qed.

Lemma insert_by_sorted (x : A) (l : list A) :
  StronglySorted (key_le key) l ->
  StronglySorted (key_le key) (insert_by key x l).
Proof.
  induction 1 as [|y l Hl IH Hy]; simpl.
  - constructor; constructor.
  - destruct (Qle_bool (key x) (key y)) eqn:E.
    + apply Qle_bool_iff in E.
      constructor; [constructor; auto|].
      constructor; [exact E|].
      rewrite List.Forall_forall in Hy |- *. intros z Hz.
      unfold key_le in *. eapply Qle_trans; eauto.
    + constructor; [exact IH|].
      rewrite List.Forall_forall in Hy |- *. intros z Hz.
      apply in_insert_by in Hz as [->|Hz]; [|auto].
      unfold key_le. apply Qlt_le_weak, Qnot_le_lt.
      intros Hle. apply Qle_bool_iff in Hle. congruence.
Qed.

Lemma order_by_sorted (l : list A) :
  StronglySorted (key_le key) (order_by key l).
Proof.
  induction l; simpl; [constructor | apply insert_by_sorted; auto].
Qed.

Lemma last_in (l : list A) (d : A) : l <> [] -> In (List.last l d) l.
Proof.
  induction l as [|x [|y l] IH]; intros H; [congruence | simpl; auto |].
  right. apply IH. discriminate.
Qed.

Lemma last_default (l : list A) (d d' : A) :
  l <> [] -> List.last l d = List.last l d'.
Proof.
  induction l as [|x [|y l] IH]; intros H; [congruence | reflexivity |].
  apply IH. discriminate.
Qed.

(** In an ordered list, the first element has the least key and the last
    the greatest. *)
Lemma sorted_hd_last (l : list A) (d x : A) :
  StronglySorted (key_le key) l -> In x l ->
  key_le key (List.hd d l) x /\ key_le key x (List.last l d).
Proof.
  induction 1 as [|y l Hl IH Hy]; [intros []|].
  rewrite List.Forall_forall in Hy.
  intros [->|Hx]; split.
  - apply Qle_refl.
  - destruct l as [|z l]; [apply Qle_refl|].
    change (List.last (x :: z :: l) d) with (List.last (z :: l) d).
    apply Hy. apply last_in. discriminate.
  - simpl. auto.
  - destruct l as [|z l]; [destruct Hx|].
    change (List.last (y :: z :: l) d) with (List.last (z :: l) d).
    apply IH; auto.
Qed.

End OrderBy.

(** ** The name generated for a file *)

(** C6: a file that covers one issue gets the name of that issue; a file
    that covers several issues gets the name of the collected edition when
    they are as many as the issues of the volume, and when they are fewer
    the name of the range from the first to the last of them, which have
    the least and the greatest calculated number. In the volume of five
    issues, the file of the issues 1 and 2 has the issue number [1-2] and
    the file of all the issues has the name of the collected edition. *)
Theorem suggest_name_by_coverage :
  (forall (db : database) (volume_id file_id : Z) (issues_in_volume : nat),
      let issues := issues_of_file db file_id in
      (forall i, issues = [i] ->
                 suggest_name volume_id issues_in_volume issues =
                 generate_issue_name volume_id (snd i)) /\
      (1 < List.length issues -> List.length issues = issues_in_volume ->
       suggest_name volume_id issues_in_volume issues =
       generate_tpb_name volume_id) /\
      (1 < List.length issues -> List.length issues < issues_in_volume ->
       exists first last,
         List.hd_error issues = Some first /\
         List.last issues first = last /\
         suggest_name volume_id issues_in_volume issues =
         generate_issue_range_name volume_id (fst first) (fst last) /\
         forall i, In i issues ->
                   Qle (fst first) (fst i) /\ Qle (fst i) (fst last))) /\
  issues_of_file (w_db library) 1 = [(1%Q, 11%Z); (2%Q, 12%Z)] /\
  count_issues (w_db library) 1 = 5 /\
  datum "issue_number"
    (match issue_range_formatting_data 1 1 2 library with
     | (Ok data_and_format, w) => (Ok (fst data_and_format), w)
     | (Raise e, w) => (Raise e, w)
     end) = Ok (Some (PStr "1-2")) /\
  fst (preview_mass_rename 1 None library) =
    Ok [ {| before := "/in/a.cbz";
            after := "/comics/Batman/Volume 1 (1963)/" +:+
                     "Batman (1963) Volume 1 Issue 1-2.cbz" |};
         {| before := "/in/b.cbz";
            after := "/comics/Batman/Volume 1 (1963)/" +:+
                     "Batman (1963) Volume 1 TPB.cbz" |};
         {| before := "/in/c.cbr";
            after := "/comics/Batman/Volume 1 (1963)/" +:+
                     "Batman (1963) Volume 1 Issue 3.cbr" |} ].
Proof.
  split; [|repeat split; vm_compute; reflexivity].
  intros db volume_id file_id issues_in_volume issues.
  assert (Hsorted : StronglySorted (key_le fst) issues)
    by apply order_by_sorted.
  split; [|split].
  - intros i ->. reflexivity.
  - intros H1 Hn. unfold suggest_name.
    apply Nat.ltb_lt in H1. apply Nat.eqb_eq in Hn. rewrite H1, Hn.
    reflexivity.
  - intros H1 Hn. unfold suggest_name.
    assert (Hne : Nat.eqb (List.length issues) issues_in_volume = false)
      by (apply Nat.eqb_neq; lia).
    apply Nat.ltb_lt in H1. rewrite H1, Hne.
    destruct issues as [|first rest] eqn:E; [discriminate|].
    exists first, (List.last (first :: rest) first).
    split; [reflexivity|]. split; [reflexivity|].
    split.
    + simpl List.hd. f_equal. f_equal.
      apply last_default. discriminate.
    + intros i Hi.
      apply (sorted_hd_last fst _ first i Hsorted Hi).
Qed.

(** ** Applying a plan *)

Section Loop.

Context {A S : Type} (body : S -> A -> M S).



End Loop.


Section Applied.

Variable rename_file : filesystem -> string -> string -> option filesystem.

(** One round of the loop: the move, and when it succeeds the update of
    the paths. *)
Lemma apply_rename_eq (r : rename) (w : world) :
  apply_rename rename_file tt r w =
  match rename_file (w_fs w) (before r) (after r) with
  | None => (Raise MoveFailure, w)
  | Some fs' =>
      (Ok tt, {| w_db := update_filepath (after r) (before r) (w_db w);
                 w_fs := fs';
                 w_cache := w_cache w |})
  end.
Proof.
  unfold apply_rename, bind, get_fs.
  destruct (rename_file _ _ _); reflexivity.
Qed.



End Applied.


(** ** The issue of id 0 *)

(** C10: with the issue id 0 the plan is that of the single issue 0 (its
    files, in the folder of the first of them), the formatting data are
    those of the volume alone, and [mass_rename] sets the folder of the
    volume as it does for a whole volume. In [issue_zero] the file of the
    issue 0 stays in its folder [/in], which becomes the folder of the
    volume; with the issue id 11 the folder of the volume is left as it
    is. *)
Theorem issue_id_zero_in_both_modes :
  (forall (volume_id : Z) (w : world),
      files_and_folder volume_id (Some 0%Z) w =
      match files_of_issue (w_db w) 0 with
      | [] => (Raise IndexError, w)
      | file :: file_infos =>
          (Ok (file :: file_infos, dirname (files_filepath file)), w)
      end) /\
  (forall (volume_id : Z) (w : world),
      _get_formatting_data volume_id (Some 0%Z) w =
      _get_formatting_data volume_id None w) /\
  (forall (rename_file : filesystem -> string -> string -> option filesystem)
          (volume_id : Z) (w w0 : world) (r : rename) (renames : list rename),
      preview_mass_rename volume_id (Some 0%Z) w = (Ok (r :: renames), w0) ->
      mass_rename rename_file volume_id (Some 0%Z) w =
      for_each (r :: renames) (apply_rename rename_file) tt
        {| w_db := update_volume_folder (dirname (after r)) volume_id
                     (w_db w0);
           w_fs := w_fs w0;
           w_cache := w_cache w0 |}) /\
  fst (preview_mass_rename 1 (Some 0%Z) issue_zero) =
    Ok [ {| before := "/in/x.cbz";
            after := "/in/Batman (1963) Volume 1 TPB.cbz" |} ] /\
  fst (mass_rename Files.rename_file 1 (Some 0%Z) issue_zero) = Ok tt /\
  map volumes_folder
    (volumes (w_db (snd (mass_rename Files.rename_file 1 (Some 0%Z)
                           issue_zero)))) = [PStr "/in"] /\
  map volumes_folder
    (volumes (w_db (snd (mass_rename Files.rename_file 1 (Some 11%Z)
                           issue_zero)))) = [PNone].
Proof.
  split; [|split; [|split; [|repeat split; vm_compute; reflexivity]]].
  - intros volume_id w. unfold files_and_folder, bind, get_db.
    destruct (files_of_issue (w_db w) 0); reflexivity.
  - intros volume_id w. reflexivity.
  - intros rename_file volume_id w w0 r renames Hplan.
    unfold mass_rename, bind. rewrite Hplan. reflexivity.
Qed.

(** ** Paths *)

Module PathFacts.

Lemma mem_app (c : ascii) (s t : string) :
  Str.mem c (s +:+ t) = Str.mem c s || Str.mem c t.
Proof.
  induction s as [|a s IH]; simpl; [reflexivity|].
  rewrite IH. apply orb_assoc.
Qed.

Lemma rsplit_none (c : ascii) (s : string) :
  Str.rsplit c s = None <-> Str.mem c s = false.
Proof.
  induction s as [|a s IH]; simpl; [tauto|].
  destruct (Str.rsplit c s) as [[h t]|].
  - split; [discriminate|]. intros H.
    apply orb_false_iff in H as [_ H]. apply IH in H. discriminate.
  - destruct (Ascii.eqb a c); simpl; [split; discriminate|].
    split; intros _; [apply IH|]; reflexivity.
Qed.

Lemma rsplit_some (c : ascii) (s h t : string) :
  Str.rsplit c s = Some (h, t) ->
  s = h +:+ String c t /\ Str.mem c t = false.
Proof.
  revert h; induction s as [|a s IH]; intros h; simpl; [discriminate|].
  destruct (Str.rsplit c s) as [[h' t']|] eqn:E.
  - intros H; inversion H; subst.
    destruct (IH h' eq_refl) as [-> Ht]. auto.
  - destruct (Ascii.eqb a c) eqn:Ea; [|discriminate].
    intros H; inversion H; subst.
    apply Ascii.eqb_eq in Ea; subst. split; [reflexivity|].
    apply rsplit_none; auto.
Qed.

Lemma rsplit_app (c : ascii) (h t : string) :
  Str.mem c t = false -> Str.rsplit c (h +:+ String c t) = Some (h, t).
Proof.
  intros Ht. induction h as [|a h IH]; simpl.
  - apply rsplit_none in Ht. rewrite Ht, Ascii.eqb_refl. reflexivity.
  - rewrite IH. reflexivity.
Qed.

Lemma ends_with_split (c : ascii) (s : string) :
  Str.ends_with c s = true -> exists s', s = s' +:+ String c "".
Proof.
  induction s as [|a s IH]; simpl; [discriminate|].
  destruct s as [|b s].
  - intros H. apply Ascii.eqb_eq in H; subst. exists "". reflexivity.
  - intros H. destruct (IH H) as [s' ->]. exists (String a s'). reflexivity.
Qed.


Lemma all_are_app (c : ascii) (s t : string) :
  Str.all_are c (s +:+ t) = Str.all_are c s && Str.all_are c t.
Proof.
  induction s as [|a s IH]; simpl; [reflexivity|].
  rewrite IH. apply andb_assoc.
Qed.






Lemma no_sep_no_prefix (x : string) :
  Str.mem sep x = false -> String.prefix (String sep "") x = false.
Proof.
  destruct x as [|a x]; [reflexivity|].
  intros H. cbn [Str.mem] in H. apply orb_false_iff in H as [Ha _].
  change (String.prefix (String sep "") (String a x))
    with (if ascii_dec sep a then String.prefix "" x else false).
  destruct (ascii_dec sep a) as [<-|Hne]; [|reflexivity].
  rewrite Ascii.eqb_refl in Ha. discriminate.
Qed.

(** The last separator of [join folder x] is the one before [x]. *)
Lemma rsplit_join (folder x : string) :
  Str.mem sep x = false ->
  (join folder x = x /\ folder = "" /\ Str.rsplit sep (join folder x) = None)
  \/
  exists h, Str.rsplit sep (join folder x) = Some (h, x) /\
            folder <> "" /\
            ((folder = h +:+ String sep "") \/
             (folder = h /\ Str.ends_with sep folder = false)).
Proof.
  intros Hx. unfold join. rewrite (no_sep_no_prefix x Hx).
  destruct (String.eqb folder "") eqn:Ee.
  - apply String.eqb_eq in Ee; subst. simpl. left.
    repeat split. apply rsplit_none; auto.
  - simpl. apply String.eqb_neq in Ee.
    destruct (Str.ends_with sep folder) eqn:Es.
    + right. apply ends_with_split in Es as [h ->]. exists h.
      split; [|auto].
      rewrite ReFacts.app_assoc. simpl. apply rsplit_app; auto.
    + right. exists folder. split; [|auto]. apply rsplit_app; auto.
Qed.

Lemma basename_join (folder x : string) :
  Str.mem sep x = false -> basename (join folder x) = x.
Proof.
  intros Hx. unfold basename.
  destruct (rsplit_join folder x Hx) as [(E & _ & ->) | (h & -> & _)]; auto.
Qed.


(** The extension of a path is that of its last component. *)
Lemma splitext_basename (p : string) :
  snd (splitext p) = snd (splitext (basename p)).
Proof.
  unfold splitext, basename.
  destruct (Str.rsplit sep p) as [[h t]|] eqn:E.
  - apply rsplit_some in E as [_ Ht]. apply rsplit_none in Ht. rewrite Ht.
    destruct (Str.rsplit extsep t) as [[stem e]|]; [|reflexivity].
    destruct (Str.all_are extsep stem); reflexivity.
  - rewrite E. reflexivity.
Qed.

(** An extension is empty, or a dot and then neither dot nor separator. *)
Lemma splitext_ext (p : string) :
  snd (splitext p) = "" \/
  exists e, snd (splitext p) = String extsep e /\
            Str.mem extsep e = false /\ Str.mem sep e = false.
Proof.
  rewrite splitext_basename.
  assert (Hb : Str.mem sep (basename p) = false).
  { unfold basename. destruct (Str.rsplit sep p) as [[h t]|] eqn:E.
    - apply rsplit_some in E as [_ Ht]; auto.
    - apply rsplit_none; auto. }
  revert Hb. generalize (basename p) as b. intros b Hb.
  unfold splitext. apply rsplit_none in Hb. rewrite Hb.
  destruct (Str.rsplit extsep b) as [[stem e]|] eqn:E; [|left; reflexivity].
  destruct (Str.all_are extsep stem); [left; reflexivity|].
  right. exists e. split; [reflexivity|].
  apply rsplit_some in E as [-> He]. split; [exact He|].
  apply rsplit_none in Hb. rewrite mem_app in Hb.
  apply orb_false_iff in Hb as [_ Hb]. simpl in Hb. exact Hb.
Qed.

(** A plain name and an extension are read back from their
    concatenation. *)
Lemma splitext_plain (name p : string) :
  plain_name name (snd (splitext p)) ->
  Str.mem sep (name +:+ snd (splitext p)) = false /\
  splitext (name +:+ snd (splitext p)) = (name, snd (splitext p)).
Proof.
  intros (Hsep & Hdots & Hnoext).
  destruct (splitext_ext p) as [E | (e & E & He & Hes)]; rewrite E in *.
  - rewrite ReFacts.app_nil_r. split; [exact Hsep|].
    unfold splitext. apply rsplit_none in Hsep. rewrite Hsep.
    specialize (Hnoext eq_refl). apply rsplit_none in Hnoext.
    rewrite Hnoext. reflexivity.
  - split.
    + rewrite mem_app, Hsep. simpl. rewrite Hes.
      destruct (Ascii.eqb extsep sep) eqn:Ec; [discriminate | reflexivity].
    + unfold splitext.
      assert (Hs : Str.mem sep (name +:+ String extsep e) = false).
      { rewrite mem_app, Hsep. simpl. rewrite Hes. reflexivity. }
      apply rsplit_none in Hs. rewrite Hs.
      rewrite (rsplit_app extsep name e He), Hdots. reflexivity.
Qed.

(** The path planned for a plain name: its name and its extension are
    those it was made of. *)
Lemma planned_path (folder name p : string) :
  plain_name name (snd (splitext p)) ->
  let q := join folder (name +:+ snd (splitext p)) in
  basename_file q = name /\ snd (splitext q) = snd (splitext p).
Proof.
  intros Hplain q. destruct (splitext_plain name p Hplain) as [Hsep Hsplit].
  unfold basename_file, q. split.
  - rewrite (basename_join _ _ Hsep), Hsplit. reflexivity.
  - rewrite (splitext_basename (join folder _)).
    rewrite (basename_join _ _ Hsep), Hsplit. reflexivity.
Qed.

End PathFacts.

(** ** What the generation of names reads and writes *)

Lemma steady_refl (w : world) : steady w w.
Proof. repeat split. Qed.

Lemma steady_trans (w1 w2 w3 : world) :
  steady w1 w2 -> steady w2 w3 -> steady w1 w3.
Proof.
  intros (D1 & F1 & S1) (D2 & F2 & S2). repeat split; congruence.
Qed.

Lemma steady_view (w w' : world) :
  steady w w' -> naming_view w' = naming_view w.
Proof. intros (D & _ & S). unfold naming_view. rewrite D, S. reflexivity. Qed.

(** The settings returned are those of the state, which become its cache;
    they are then the settings of the new state. *)
Lemma get_settings_eq (w : world) :
  get_settings w =
  (Ok (settings_of w),
   {| w_db := w_db w; w_fs := w_fs w; w_cache := settings_of w |}).
Proof. reflexivity. Qed.

Lemma settings_of_cached (w : world) :
  settings_of {| w_db := w_db w; w_fs := w_fs w; w_cache := settings_of w |}
  = settings_of w.
Proof.
  unfold settings_of at 1. simpl.
  destruct (decide (settings_of w = ∅)) as [E|]; [|reflexivity].
  rewrite E, (right_id_L ∅ (∪)).
  unfold settings_of in E.
  destruct (decide (w_cache w = ∅)) as [Ec|]; [|contradiction].
  rewrite Ec, (right_id_L ∅ (∪)) in E. exact E.
Qed.

Lemma reads_ret {A : Type} (a : A) : reads_naming (ret a).
Proof. split; [intros w; apply steady_refl | reflexivity]. Qed.

Lemma reads_raise {A : Type} (e : exn) : reads_naming (@raise A e).
Proof. split; [intros w; apply steady_refl | reflexivity]. Qed.

Lemma reads_lift {A : Type} (r : result A) : reads_naming (lift r).
Proof. split; [intros w; apply steady_refl | reflexivity]. Qed.

Lemma reads_bind {A B : Type} (m : M A) (k : A -> M B) :
  reads_naming m -> (forall a, reads_naming (k a)) -> reads_naming (bind m k).
Proof.
  intros [Hm1 Hm2] Hk. split.
  - intros w. unfold bind. specialize (Hm1 w).
    destruct (m w) as [[a|e] w']; simpl in *; [|exact Hm1].
    eapply steady_trans; [exact Hm1 | apply Hk].
  - intros w1 w2 Hv. unfold bind.
    pose proof (Hm2 w1 w2 Hv) as Hr.
    pose proof (Hm1 w1) as H1. pose proof (Hm1 w2) as H2.
    destruct (m w1) as [[a1|e1] w1'], (m w2) as [[a2|e2] w2'];
      simpl in *; try discriminate; try congruence.
    inversion Hr; subst. apply Hk.
    rewrite (steady_view _ _ H1), (steady_view _ _ H2). exact Hv.
Qed.

Lemma reads_get_settings : reads_naming get_settings.
Proof.
  split.
  - intros w. rewrite get_settings_eq. simpl.
    repeat split. apply settings_of_cached.
  - intros w1 w2 Hv. rewrite !get_settings_eq. simpl.
    unfold naming_view in Hv. congruence.
Qed.

Lemma reads_getitem (d : gmap string pyval) (key : string) :
  reads_naming (getitem d key).
Proof.
  unfold getitem.
  destruct (d !! key); [apply reads_ret | apply reads_raise].
Qed.

Lemma reads_str_format (format : pyval) (d : gmap string pyval) :
  reads_naming (str_format format d).
Proof.
  unfold str_format. destruct format; auto using reads_raise, reads_lift.
Qed.

Lemma find_forget_folder (volume_id : Z) (vs : list volume_row) :
  List.find (fun v => Z.eqb (volumes_id v) volume_id) (map forget_folder vs) =
  option_map forget_folder
    (List.find (fun v => Z.eqb (volumes_id v) volume_id) vs).
Proof.
  induction vs as [|v vs IH]; simpl; [reflexivity|].
  destruct (Z.eqb (volumes_id v) volume_id); [reflexivity | exact IH].
Qed.

Lemma reads_formatting_data (volume_id : Z) (issue_id : option Z) :
  reads_naming (_get_formatting_data volume_id issue_id).
Proof.
  split.
  - intros w. unfold _get_formatting_data, bind, get_db.
    destruct (List.find _ (volumes (w_db w))); [|apply steady_refl].
    unfold lift. destruct (clean_title_of _); [|apply steady_refl].
    destruct (given issue_id); [|apply steady_refl].
    destruct (List.find _ (issues (w_db w))); apply steady_refl.
  - intros w1 w2 Hv. unfold naming_view in Hv.
    inversion Hv as [[Hvs His Hs]].
    unfold _get_formatting_data, bind, get_db.
    pose proof (find_forget_folder volume_id (volumes (w_db w1))) as F1.
    pose proof (find_forget_folder volume_id (volumes (w_db w2))) as F2.
    rewrite Hvs, F2 in F1. rewrite His.
    destruct (List.find _ (volumes (w_db w1))) as [[]|],
             (List.find _ (volumes (w_db w2))) as [[]|];
      simpl in F1; try discriminate; [|reflexivity].
    unfold forget_folder in F1; simpl in F1. inversion F1; subst.
    simpl. unfold lift. destruct (clean_title_of _); [|reflexivity].
    destruct (given issue_id); [|reflexivity].
    destruct (List.find _ (issues (w_db w2))); reflexivity.
Qed.

(** The four generators of names. *)
Lemma reads_generate_volume_folder_name (volume_id : Z) :
  reads_naming (generate_volume_folder_name volume_id).
Proof.
  unfold generate_volume_folder_name.
  apply reads_bind; [apply reads_formatting_data|]. intros d.
  apply reads_bind; [apply reads_get_settings|]. intros settings.
  apply reads_bind; [apply reads_getitem|]. intros format.
  apply reads_str_format.
Qed.

Lemma reads_generate_tpb_name (volume_id : Z) :
  reads_naming (generate_tpb_name volume_id).
Proof.
  unfold generate_tpb_name.
  apply reads_bind; [apply reads_formatting_data|]. intros d.
  apply reads_bind; [apply reads_get_settings|]. intros settings.
  apply reads_bind; [apply reads_getitem|]. intros format.
  apply reads_str_format.
Qed.

Lemma reads_generate_issue_name (volume_id issue_id : Z) :
  reads_naming (generate_issue_name volume_id issue_id).
Proof.
  unfold generate_issue_name.
  apply reads_bind; [apply reads_formatting_data|]. intros d.
  apply reads_bind; [apply reads_get_settings|]. intros settings.
  apply reads_bind; [apply reads_getitem|]. intros format.
  apply reads_str_format.
Qed.

(** A computation that reads the issues of the database. *)
Lemma reads_issues {A : Type} (F : list issue_row -> M A) :
  (forall l, reads_naming (F l)) ->
  reads_naming (bind get_db (fun db => F (issues db))).
Proof.
  intros HF. split.
  - intros w. unfold bind, get_db. apply HF.
  - intros w1 w2 Hv. unfold bind, get_db.
    pose proof Hv as Hv'. unfold naming_view in Hv'.
    inversion Hv' as [[Hvs His Hs]]. rewrite His. apply HF. exact Hv.
Qed.

Lemma reads_generate_issue_range_name (volume_id : Z) (first last : Q) :
  reads_naming (generate_issue_range_name volume_id first last).
Proof.
  unfold generate_issue_range_name.
  apply reads_bind; [|intros; apply reads_str_format].
  unfold issue_range_formatting_data.
  apply (reads_issues (fun l => match List.find _ l with
                                 | Some i => _
                                 | None => _
                                 end)).
  intros l. destruct (List.find _ l) as [i|]; [|apply reads_raise].
  apply reads_bind; [apply reads_formatting_data|]. intros d.
  apply reads_bind; [apply reads_get_settings|]. intros settings.
  apply reads_bind; [apply reads_getitem|]. intros format.
  apply (reads_issues (fun l => match order_by _ (List.filter _ l) with
                                 | [a; b] => _
                                 | _ => _
                                 end)).
  intros l'.
  destruct (order_by _ _) as [|a [|b [|c rest]]];
    auto using reads_ret, reads_raise.
Qed.

Lemma reads_suggest_name (volume_id : Z) (issues_in_volume : nat)
    (issues : list (Q * Z)) :
  reads_naming (suggest_name volume_id issues_in_volume issues).
Proof.
  unfold suggest_name.
  destruct (Nat.ltb 1 (List.length issues)).
  - destruct (Nat.eqb _ _);
      [apply reads_generate_tpb_name | apply reads_generate_issue_range_name].
  - destruct issues; [apply reads_raise | apply reads_generate_issue_name].
Qed.

(** ** The files of a volume or issue once paths are updated *)


Lemma set_path_id (a b : string) (f : file_row) :
  files_id (set_path a b f) = files_id f.
Proof. unfold set_path. destruct (String.eqb _ _); reflexivity. Qed.


















(** ** The numbering is stable *)


(** ** The folder once a file is moved *)


Lemma existsb_eqb_In (p : string) (l : list string) :
  existsb (String.eqb p) l = true <-> In p l.
Proof. apply str_in_In. Qed.


(** ** A plan for one file, and the plan that follows it *)

Lemma new_name_eq (volume_id : Z) (folder : string) (n : nat)
    (result : list rename) (file : file_row) (w : world) :
  new_name volume_id folder n result file w =
  match suggest_name volume_id n
          (issues_of_file (w_db w) (files_id file)) w with
  | (Ok s, w1) =>
      same_name_indexing s (files_filepath file) folder result w1
  | (Raise e, w1) => (Raise e, w1)
  end.
Proof. reflexivity. Qed.

Lemma plan_file_eq (volume_id : Z) (folder : string) (n : nat)
    (result : list rename) (file : file_row) (w : world) :
  plan_file volume_id folder n result file w =
  if isfile (w_fs w) (files_filepath file) then
    match new_name volume_id folder n result file w with
    | (Ok name, w1) =>
        if String.eqb (files_filepath file)
             (join folder (name +:+ snd (splitext (files_filepath file))))
        then (Ok result, w1)
        else (Ok (result ++
                  [ {| before := files_filepath file;
                       after := join folder
                                  (name +:+
                                   snd (splitext (files_filepath file))) |} ]),
              w1)
    | (Raise e, w1) => (Raise e, w1)
    end
  else (Ok result, w).
Proof.
  unfold plan_file, bind, get_fs.
  destruct (isfile (w_fs w) (files_filepath file)); [|reflexivity]. simpl.
  destruct (new_name _ _ _ _ _ _) as [[name|e] w1]; [|reflexivity].
  destruct (String.eqb _ _); reflexivity.
Qed.

Lemma preview_mass_rename_eq (volume_id : Z) (issue_id : option Z)
    (w : world) :
  preview_mass_rename volume_id issue_id w =
  match files_and_folder volume_id issue_id w with
  | (Ok scope, w0) =>
      for_each (fst scope)
        (plan_file volume_id (snd scope)
           (count_issues (w_db w0) volume_id)) [] w0
  | (Raise e, w0) => (Raise e, w0)
  end.
Proof. reflexivity. Qed.


Lemma new_name_steady (volume_id : Z) (folder : string) (n : nat)
    (result : list rename) (file : file_row) (w : world) :
  steady w (snd (new_name volume_id folder n result file w)).
Proof.
  rewrite new_name_eq.
  pose proof (proj1 (reads_suggest_name volume_id n
                       (issues_of_file (w_db w) (files_id file))) w) as H.
  destruct (suggest_name _ _ _ w) as [[s|e] w1]; simpl in *; [|exact H].
  rewrite same_name_indexing_eq. destruct (index_name _ _); exact H.
Qed.

Lemma files_and_folder_steady (volume_id : Z) (issue_id : option Z)
    (w : world) :
  steady w (snd (files_and_folder volume_id issue_id w)).
Proof.
  unfold files_and_folder, bind, get_db. destruct issue_id as [i|].
  - destruct (files_of_issue _ _); apply steady_refl.
  - destruct (root_folder_of _ _); [|apply steady_refl].
    pose proof (proj1 (reads_generate_volume_folder_name volume_id) w) as H.
    destruct (generate_volume_folder_name volume_id w) as [[name|e] w0];
      exact H.
Qed.








(** The name must be plain: in [no_extension] the single file has no
    extension and gets a name with a dot, what follows the dot is taken
    for its extension in the next plan, which appends it once more. *)
Lemma preview_after_mass_rename_extension :
  fst (mass_rename Files.rename_file 1 (Some 11%Z) no_extension) = Ok tt /\
  fst (preview_mass_rename 1 (Some 11%Z)
         (snd (mass_rename Files.rename_file 1 (Some 11%Z) no_extension))) =
    Ok [ {| before := "/in/Dr. Strange (1963) Volume 1 Issue 1";
            after := "/in/Dr. Strange (1963) Volume 1 Issue 1" +:+
                     ". Strange (1963) Volume 1 Issue 1" |} ].
Proof. split; vm_compute; reflexivity. Qed.

(** * Further properties *)

(** ** The formatting data: keys, values and errors *)

Lemma truthy_py_or_Unknown (v : pyval) : truthy (py_or v Unknown) = true.
Proof. unfold py_or. destruct (truthy v) eqn:E; [exact E | reflexivity]. Qed.

Lemma truthy_clean_title (title clean_title : pyval) :
  clean_title_of title = Ok clean_title -> truthy clean_title = true.
Proof.
  assert (Hne : forall t u, truthy (PStr (t +:+ String "," u)) = true).
  { intros t u. destruct t; reflexivity. }
  unfold clean_title_of. destruct title as [| |t]; try discriminate.
  destruct (String.prefix "The " t); [intros H; injection H as <-; apply Hne|].
  destruct (String.prefix "A " t); [intros H; injection H as <-; apply Hne|].
  intros H; injection H as <-. apply truthy_py_or_Unknown.
Qed.

(** The formatting data are computed without a change of the state, and
    their keys are those of the vocabulary. *)
Lemma formatting_data_facts (volume_id : Z) (issue_id : option Z)
    (w w' : world) (formatting_data : gmap string pyval) :
  _get_formatting_data volume_id issue_id w = (Ok formatting_data, w') ->
  w' = w /\
  dom formatting_data =
    list_to_set (if given issue_id then issue_formatting_keys
                 else formatting_keys).
Proof.
  unfold _get_formatting_data, bind, get_db.
  destruct (List.find _ (volumes (w_db w))) as [volume_data|];
    [|discriminate].
  unfold lift.
  destruct (clean_title_of _) as [clean_title|]; [|discriminate].
  destruct (given issue_id).
  - destruct (List.find _ (issues (w_db w))) as [issue_data|];
      [|discriminate].
    unfold ret. intros H. injection H as <- <-. split; [reflexivity|].
    rewrite !dom_insert_L, dom_empty_L. simpl. set_solver.
  - unfold ret. intros H. injection H as <- <-. split; [reflexivity|].
    rewrite !dom_insert_L, dom_empty_L. simpl. set_solver.
Qed.

(** X1: the formatting data that are built have the keys of the
    vocabulary, those of the volume, with those of the issue when an issue
    is given, and no other key; no datum is [None], [0] or the empty
    string; and the state is left as it was. *)
Theorem formatting_data_vocabulary (volume_id : Z) (issue_id : option Z)
    (w w' : world) (formatting_data : gmap string pyval) :
  _get_formatting_data volume_id issue_id w = (Ok formatting_data, w') ->
  w' = w /\
  dom formatting_data =
    list_to_set (if given issue_id then issue_formatting_keys
                 else formatting_keys) /\
  forall key value,
    formatting_data !! key = Some value -> truthy value = true.
Proof.
  intros Hdata.
  destruct (formatting_data_facts _ _ _ _ _ Hdata) as [Hw Hdom].
  split; [exact Hw|]. split; [exact Hdom|]. clear Hw Hdom.
  revert Hdata. unfold _get_formatting_data, bind, get_db.
  destruct (List.find _ (volumes (w_db w))) as [volume_data|];
    [|discriminate].
  unfold lift.
  destruct (clean_title_of _) as [clean_title|] eqn:Hclean; [|discriminate].
  apply truthy_clean_title in Hclean.
  assert (Hvol : map_Forall (fun _ v => truthy v = true)
    (<["publisher":=py_or (volumes_publisher volume_data) Unknown]>
     (<["year":=py_or (volumes_year volume_data) Unknown]>
      (<["comicvine_id":=py_or (volumes_comicvine_id volume_data) Unknown]>
       (<["volume_number":=py_or (volumes_volume_number volume_data)
                             Unknown]>
        (<["clean_series_name":=clean_title]>
         (<["series_name":=py_or (volumes_title volume_data) Unknown]>
          (∅ : gmap string pyval)))))))).
  { repeat (apply map_Forall_insert_2;
            [first [apply truthy_py_or_Unknown | exact Hclean]|]).
    apply map_Forall_empty. }
  destruct (given issue_id).
  - destruct (List.find _ (issues (w_db w))) as [issue_data|];
      [|discriminate].
    unfold ret. intros H. injection H as <- <-.
    apply map_Forall_lookup.
    do 4 (apply map_Forall_insert_2; [apply truthy_py_or_Unknown|]).
    exact Hvol.
  - unfold ret. intros H. injection H as <- <-.
    apply map_Forall_lookup. exact Hvol.
Qed.

Lemma formatting_data_vocabulary_witness :
  exists formatting_data,
    _get_formatting_data 1 (Some 11%Z) library = (Ok formatting_data, library)
    /\ dom formatting_data = list_to_set issue_formatting_keys
    /\ forall key value,
         formatting_data !! key = Some value -> truthy value = true.
Proof.
  destruct (_get_formatting_data 1 (Some 11%Z) library) as [[d|e] w'] eqn:E;
    [|vm_compute in E; discriminate E].
  destruct (formatting_data_vocabulary 1 (Some 11%Z) library w' d E)
    as (-> & Hdom & Htruthy).
  exists d. auto.
Defined.



(** X3: the formatting data fail with [VolumeNotFound] exactly when no
    volume has the id, and with [IssueNotFound] exactly when the volume is
    there with a title that is a string, an issue id other than 0 is
    given, and no issue has it. *)
Theorem formatting_data_not_found (volume_id : Z) (issue_id : option Z)
    (w : world) :
  (_get_formatting_data volume_id issue_id w = (Raise VolumeNotFound, w) <->
   List.find (fun v => Z.eqb (volumes_id v) volume_id) (volumes (w_db w)) =
     None) /\
  (_get_formatting_data volume_id issue_id w = (Raise IssueNotFound, w) <->
   exists volume_data title,
     List.find (fun v => Z.eqb (volumes_id v) volume_id) (volumes (w_db w)) =
       Some volume_data /\
     volumes_title volume_data = PStr title /\
     given issue_id = true /\
     List.find (fun i => Z.eqb (issues_id i) (default 0%Z issue_id))
       (issues (w_db w)) = None).
Proof.
  unfold _get_formatting_data, bind, get_db, lift.
  destruct (List.find _ (volumes (w_db w))) as [volume_data|].
  2:{ split; [split; reflexivity|].
      split; [absurd_eq | intros (vd & t & E & _); discriminate E]. }
  destruct (volumes_title volume_data) as [| |title] eqn:Htitle;
    cbn [clean_title_of].
  1,2: split; [split; absurd_eq|];
       split; [absurd_eq | intros (vd & t & E & Ht & _)];
       injection E as <-; congruence.
  assert (Hclean : exists c, (if String.prefix "The " title
                              then Ok (PStr (title +:+ ", The"))
                              else if String.prefix "A " title
                              then Ok (PStr (title +:+ ", A"))
                              else Ok (py_or (PStr title) Unknown)) = Ok c).
  { destruct (String.prefix "The " title), (String.prefix "A " title);
      eexists; reflexivity. }
  destruct Hclean as [c ->].
  destruct (given issue_id).
  - destruct (List.find _ (issues (w_db w))) eqn:Hissue.
    + split; [split; absurd_eq|].
      split; [absurd_eq | intros (vd & t & _ & _ & _ & H); discriminate H].
    + split; [split; absurd_eq|].
      split; [intros _ | reflexivity]. exists volume_data, title. auto.
  - split; [split; absurd_eq|].
    split; [absurd_eq | intros (vd & t & _ & _ & H & _); discriminate H].
Qed.

(** ** Checking formats: what is accepted, and that it renders *)

Lemma existsb_eqb_false (key : string) (l : list string) :
  negb (existsb (String.eqb key) l) = true <-> ~ In key l.
Proof.
  rewrite negb_true_iff.
  change (existsb (String.eqb key) l) with (str_in key l).
  apply str_in_false.
Qed.

Lemma find_unknown_key (keys naming_keys : list string) :
  match List.find (fun k => negb (existsb (String.eqb k) naming_keys)) keys with
  | Some key => In key keys /\ ~ In key naming_keys
  | None => List.Forall (fun k => In k naming_keys) keys
  end.
Proof.
  destruct (List.find _ keys) as [key|] eqn:E.
  - apply List.find_some in E as [Hin Hk]. split; [exact Hin|].
    apply existsb_eqb_false. exact Hk.
  - apply List.Forall_forall. intros k Hk.
    pose proof (List.find_none _ _ E k Hk) as Hn. simpl in Hn.
    apply negb_false_iff in Hn. apply str_in_In. exact Hn.
Qed.

(** X4: [check_format] accepts a format exactly when its fields parse, it
    holds neither a slash nor two backslashes in a row if it names a file,
    and every field name is in the vocabulary of its kind; what it raises
    otherwise is the [ValueError] of the parser, or [InvalidSettingValue]
    for the path separator or for a field name that is not in the
    vocabulary. *)
Theorem check_format_outcomes (format type : string) :
  (check_format format type = Ok tt <->
   exists parsed,
     Fmt.parse format = Ok parsed /\
     (names_file type = true ->
      Str.contains "/" format = false /\
      Str.contains "\\" format = false) /\
     List.Forall (fun key => In key (naming_keys_of type))
       (field_names parsed)) /\
  (forall e, check_format format type = Raise e ->
     value_error e \/
     e = InvalidSettingValue "Path seperator found" \/
     exists parsed key,
       Fmt.parse format = Ok parsed /\
       In key (field_names parsed) /\
       ~ In key (naming_keys_of type) /\
       e = InvalidSettingValue ("{" +:+ key +:+ "}")).
Proof.
  unfold check_format.
  destruct (FmtFacts.parse_total format) as [[parsed Hp] | [msg Hp]];
    rewrite Hp.
  2:{ split.
      - split; [absurd_eq | intros (p & E & _); discriminate E].
      - intros e H. injection H as <-. left. eexists; reflexivity. }
  fold (field_names parsed). fold (names_file type).
  assert (Hkeys : forall naming_keys,
    (match List.find (fun k => negb (existsb (String.eqb k) naming_keys))
             (field_names parsed) with
     | Some k => Raise (InvalidSettingValue ("{" +:+ k +:+ "}"))
     | None => Ok tt
     end = Ok tt <->
     List.Forall (fun k => In k naming_keys) (field_names parsed)) /\
    (forall e,
       match List.find (fun k => negb (existsb (String.eqb k) naming_keys))
               (field_names parsed) with
       | Some k => Raise (InvalidSettingValue ("{" +:+ k +:+ "}"))
       | None => Ok tt
       end = Raise e ->
       exists key, In key (field_names parsed) /\ ~ In key naming_keys /\
                   e = InvalidSettingValue ("{" +:+ key +:+ "}"))).
  { intros naming_keys.
    pose proof (find_unknown_key (field_names parsed) naming_keys) as H.
    destruct (List.find _ (field_names parsed)) as [key|].
    - destruct H as [Hin Hout]. split.
      + split; [absurd_eq|]. intros Hall.
        rewrite List.Forall_forall in Hall. exfalso. auto.
      + intros e He. injection He as <-. exists key. auto.
    - split; [tauto | intros e He; discriminate He]. }
  unfold naming_keys_of.
  destruct (names_file type) eqn:Hfile.
  - destruct (Str.contains "/" format || Str.contains "\\" format) eqn:Hsep.
    + split.
      * split; [absurd_eq|]. intros (p & _ & Hno & _).
        destruct (Hno eq_refl) as [H1 H2]. rewrite H1, H2 in Hsep.
        discriminate Hsep.
      * intros e He. injection He as <-. auto.
    + apply orb_false_iff in Hsep as [H1 H2].
      destruct (Hkeys (if String.eqb type "file_naming"
                       then issue_formatting_keys else formatting_keys))
        as [Hok Herr].
      split.
      * rewrite Hok. split.
        -- intros Hall. exists parsed. auto.
        -- intros (p & E & _ & Hall). injection E as <-. exact Hall.
      * intros e He. right. right.
        destruct (Herr e He) as (key & Hin & Hout & ->).
        exists parsed, key. auto.
  - assert (Etype : String.eqb type "file_naming" = false).
    { unfold names_file in Hfile. apply orb_false_iff in Hfile. tauto. }
    rewrite Etype. destruct (Hkeys formatting_keys) as [Hok Herr].
    split.
    + rewrite Hok. split.
      * intros Hall. exists parsed. split; [reflexivity|].
        split; [intros H; discriminate H | exact Hall].
      * intros (p & E & _ & Hall). injection E as <-. exact Hall.
    + intros e He. right. right.
      destruct (Herr e He) as (key & Hin & Hout & ->).
      exists parsed, key. auto.
Qed.








(** ** The generators on accepted formats *)



(** ** The name of a range of issues: when it is generated *)

(** X7: a name of a range of issues is generated only when the volume has
    an issue at the first number and the two numbers select exactly two
    issues of the volume: the name is the format ["file_naming"] rendered
    on the data of that first issue, with the display numbers of the two
    issues, in the order of their calculated numbers, as the issue
    number. *)
Theorem generate_issue_range_name_two_rows (volume_id : Z) (first last : Q)
    (w : world) (name : string) :
  fst (generate_issue_range_name volume_id first last w) = Ok name ->
  exists issue_data formatting_data format issue_number_start
         issue_number_end,
    List.find
      (fun i => Z.eqb (issues_volume_id i) volume_id &&
                Qeq_bool (issues_calculated_issue_number i) first)
      (issues (w_db w)) = Some issue_data /\
    _get_formatting_data volume_id (Some (issues_id issue_data)) w =
      (Ok formatting_data, w) /\
    settings_of w !! "file_naming" = Some (PStr format) /\
    order_by issues_calculated_issue_number
      (List.filter
         (fun i => Z.eqb (issues_volume_id i) volume_id &&
                   (Qeq_bool (issues_calculated_issue_number i) first ||
                    Qeq_bool (issues_calculated_issue_number i) last))
         (issues (w_db w))) = [issue_number_start; issue_number_end] /\
    Qle (issues_calculated_issue_number issue_number_start)
        (issues_calculated_issue_number issue_number_end) /\
    Fmt.format format
      (<["issue_number" :=
           PStr (py_str (issues_issue_number issue_number_start) +:+ "-" +:+
                 py_str (issues_issue_number issue_number_end))]>
         formatting_data) = Ok name.
Proof.
  unfold generate_issue_range_name, issue_range_formatting_data.
  unfold bind at 1 2. unfold get_db at 1.
  destruct (List.find _ (issues (w_db w))) as [issue_data|] eqn:Hfind;
    [|intros H; discriminate H].
  unfold bind at 1.
  destruct (_get_formatting_data volume_id (Some (issues_id issue_data)) w)
    as [[formatting_data|e] w1] eqn:Hdata; [|intros H; discriminate H].
  destruct (formatting_data_facts _ _ _ _ _ Hdata) as [-> _].
  unfold bind at 1. rewrite get_settings_eq.
  unfold bind at 1. unfold getitem.
  destruct (settings_of w !! "file_naming") as [format|] eqn:Hformat;
    [|intros H; discriminate H].
  unfold ret at 1. unfold bind at 1. unfold get_db. cbn [w_db].
  pose proof (order_by_sorted issues_calculated_issue_number
    (List.filter
       (fun i => Z.eqb (issues_volume_id i) volume_id &&
                 (Qeq_bool (issues_calculated_issue_number i) first ||
                  Qeq_bool (issues_calculated_issue_number i) last))
       (issues (w_db w)))) as Hsorted.
  destruct (order_by _ _) as [|a [|b [|c rows]]];
    try (intros H; discriminate H).
  unfold ret. cbn [fst snd]. unfold str_format.
  destruct format as [| |format]; try (intros H; discriminate H).
  unfold lift. cbn [fst]. intros Hname.
  exists issue_data, formatting_data, format, a, b.
  repeat split; try reflexivity; try assumption.
  inversion Hsorted as [|x l Hl Hx]; subst.
  inversion Hx as [|y l' Hab _]; subst. exact Hab.
Qed.

Lemma generate_issue_range_name_two_rows_witness :
  fst (generate_issue_range_name 1 1 2 library) =
    Ok "Batman (1963) Volume 1 Issue 1-2" /\
  exists issue_data formatting_data format issue_number_start
         issue_number_end,
    List.find
      (fun i => Z.eqb (issues_volume_id i) 1 &&
                Qeq_bool (issues_calculated_issue_number i) 1)
      (issues (w_db library)) = Some issue_data /\
    _get_formatting_data 1 (Some (issues_id issue_data)) library =
      (Ok formatting_data, library) /\
    settings_of library !! "file_naming" = Some (PStr format) /\
    order_by issues_calculated_issue_number
      (List.filter
         (fun i => Z.eqb (issues_volume_id i) 1 &&
                   (Qeq_bool (issues_calculated_issue_number i) 1 ||
                    Qeq_bool (issues_calculated_issue_number i) 2))
         (issues (w_db library))) = [issue_number_start; issue_number_end] /\
    Qle (issues_calculated_issue_number issue_number_start)
        (issues_calculated_issue_number issue_number_end) /\
    Fmt.format format
      (<["issue_number" :=
           PStr (py_str (issues_issue_number issue_number_start) +:+ "-" +:+
                 py_str (issues_issue_number issue_number_end))]>
         formatting_data) = Ok "Batman (1963) Volume 1 Issue 1-2".
Proof.
  split; [vm_compute; reflexivity|].
  apply (generate_issue_range_name_two_rows 1 1 2 library).
  vm_compute. reflexivity.
Defined.

(** ** The plan of a renaming *)

Lemma all_digits_string_of_uint (d : Decimal.uint) :
  Fmt.all_digits (NilEmpty.string_of_uint d) = true.
Proof. induction d; simpl; auto. Qed.

Lemma str_of_nat_digits (n : nat) :
  str_of_nat n <> "" /\ Fmt.all_digits (str_of_nat n) = true.
Proof.
  unfold str_of_nat. split; [|apply all_digits_string_of_uint].
  destruct (Nat.to_uint n) eqn:E; simpl; try discriminate.
  pose proof (DecimalNat.Unsigned.of_to n) as H. rewrite E in H.
  simpl in H. subst n. discriminate E.
Qed.

Lemma numbered_self (s : string) : numbered s s.
Proof.
  exists "", "". rewrite !ReFacts.app_nil_r. auto.
Qed.

Lemma numbered_indexed (s : string) (n : nat) : numbered s (indexed s n).
Proof.
  exists (" (" +:+ str_of_nat n +:+ ")"), "".
  destruct (str_of_nat_digits n) as [Hne Hd].
  split; [unfold indexed; rewrite ReFacts.app_nil_r; reflexivity|].
  split; [|auto]. right. exists (str_of_nat n). auto.
Qed.

(** The name chosen by the numbering is the suggested name or a numbered
    one, and it is not among the taken names. *)
Lemma index_name_free (s name : string) (names : list string) :
  index_name s names = Some name ->
  (name = s \/ exists N, 1 <= N /\ name = indexed s N) /\
  numbered s name /\ ~ In name names.
Proof.
  intros Hname.
  destruct (index_name_spec s names) as (r & Hr & Hout & Hin).
  rewrite Hr in Hname. injection Hname as <-.
  destruct (in_dec string_dec s names) as [Hs|Hs].
  - destruct (Hin Hs) as (N & HN & -> & Hfree & _).
    split; [right; eauto|]. split; [apply numbered_indexed | exact Hfree].
  - rewrite (Hout Hs). split; [auto|].
    split; [apply numbered_self | exact Hs].
Qed.

Lemma suggest_name_steady (volume_id : Z) (n : nat) (issues : list (Q * Z))
    (w1 w2 : world) :
  steady w1 w2 ->
  fst (suggest_name volume_id n issues w2) =
  fst (suggest_name volume_id n issues w1).
Proof.
  intros H. apply (proj2 (reads_suggest_name volume_id n issues)).
  apply steady_view. exact H.
Qed.

Lemma snoc_split {A : Type} (earlier later result : list A) (r e : A) :
  result ++ [e] = earlier ++ r :: later ->
  (later = [] /\ earlier = result /\ r = e) \/
  exists later', later = later' ++ [e] /\ result = earlier ++ r :: later'.
Proof.
  intros H. destruct later as [|x later].
  - left. apply app_inj_tail in H as [-> ->]. auto.
  - right.
    destruct (@exists_last _ (x :: later) ltac:(discriminate))
      as (later' & y & E).
    rewrite E in H |- *.
    change (earlier ++ r :: later' ++ [y])
      with (earlier ++ (r :: later') ++ [y]) in H.
    rewrite app_assoc in H. apply app_inj_tail in H as [-> ->].
    exists later'. auto.
Qed.

Lemma plan_file_planned (volume_id : Z) (wb : world) (folder : string)
    (result result' : list rename) (all : list file_row)
    (file : file_row) (w w' : world) :
  In file all -> steady wb w ->
  plan_ok volume_id wb folder all result ->
  plan_file volume_id folder (count_issues (w_db wb) volume_id) result file w
    = (Ok result', w') ->
  steady wb w' /\ plan_ok volume_id wb folder all result'.
Proof.
  intros Hfile Hst Hplan. rewrite plan_file_eq.
  set (p := files_filepath file).
  destruct (isfile (w_fs w) p) eqn:Hisfile.
  2:{ intros H. injection H as <- <-. auto. }
  rewrite new_name_eq.
  pose proof (proj1 (reads_suggest_name volume_id
                       (count_issues (w_db wb) volume_id)
                       (issues_of_file (w_db w) (files_id file))) w) as Hst1.
  pose proof (suggest_name_steady volume_id
                (count_issues (w_db wb) volume_id)
                (issues_of_file (w_db w) (files_id file)) wb w Hst) as Hs.
  destruct (suggest_name _ _ _ w) as [[s|e] w1]; [|absurd_eq].
  cbn [fst snd] in Hst1, Hs.
  rewrite same_name_indexing_eq. fold p.
  destruct (index_name s _) as [name|] eqn:Hname; [|absurd_eq].
  apply index_name_free in Hname as (Hshape & Hnumbered & Hfree).
  assert (Hst' : steady wb w1) by (eapply steady_trans; eauto).
  destruct (String.eqb_spec p (join folder (name +:+ snd (splitext p))))
    as [E|Hne]; intros H; injection H as <- <-; (split; [exact Hst'|]);
    [exact Hplan|].
  intros earlier r later Hsplit.
  apply snoc_split in Hsplit as [(_ & -> & ->) | (later' & _ & ->)];
    [|apply (Hplan earlier r later'); reflexivity].
  destruct Hst as (Hdb & Hfs & _). destruct Hst1 as (Hdb1 & Hfs1 & _).
  exists file, s, name. cbn [before after]. fold p.
  split; [exact Hfile|]. split; [reflexivity|].
  split; [rewrite <- Hfs; exact Hisfile|].
  split; [rewrite Hdb in Hs; symmetry; exact Hs|].
  split; [exact Hshape|]. split; [reflexivity|].
  split; [intros E; apply Hne; symmetry; exact E|].
  split.
  - intros r0 Hr0 E. apply Hfree. apply in_same_names.
    split; [exact Hnumbered|]. left. rewrite <- E.
    apply (in_map (fun r => fst (splitext (basename (after r))))).
    exact Hr0.
  - intros Hdir entry Hentry E.
    destruct (string_dec name (basename_file p)) as [Heq|Hneq]; [exact Heq|].
    exfalso. apply Hfree. apply in_same_names.
    split; [exact Hnumbered|]. right.
    exists (listdir (w_fs wb) folder). unfold listing_of.
    rewrite Hfs1, Hfs, Hdir. split; [reflexivity|]. split; [|exact Hneq].
    rewrite <- E. apply (in_map (fun f => fst (splitext f))). exact Hentry.
Qed.

Lemma for_each_planned (volume_id : Z) (wb : world) (folder : string)
    (all : list file_row) :
  forall (rest : list file_row) (result result' : list rename)
         (w w' : world),
    incl rest all -> steady wb w ->
    plan_ok volume_id wb folder all result ->
    for_each rest (plan_file volume_id folder
                      (count_issues (w_db wb) volume_id)) result w
      = (Ok result', w') ->
    steady wb w' /\ plan_ok volume_id wb folder all result'.
Proof.
  induction rest as [|file rest IH]; intros result result' w w' Hincl Hst
    Hplan; simpl.
  - unfold ret. intros H. injection H as <- <-. auto.
  - unfold bind.
    destruct (plan_file _ _ _ result file w) as [[result1|e] w1] eqn:Hstep;
      [|absurd_eq].
    apply (plan_file_planned volume_id wb folder result result1 all)
      in Hstep as [Hst1 Hplan1];
      [|apply Hincl; left; reflexivity | exact Hst | exact Hplan].
    apply IH; [|exact Hst1 | exact Hplan1].
    intros f Hf. apply Hincl. right. exact Hf.
Qed.

Lemma plan_file_steady (volume_id : Z) (folder : string) (n : nat)
    (result : list rename) (file : file_row) (w : world) :
  steady w (snd (plan_file volume_id folder n result file w)).
Proof.
  rewrite plan_file_eq.
  destruct (isfile (w_fs w) (files_filepath file)); [|apply steady_refl].
  pose proof (new_name_steady volume_id folder n result file w) as H.
  destruct (new_name _ _ _ _ _ w) as [[name|e] w1]; [|exact H].
  destruct (String.eqb _ _); exact H.
Qed.

Lemma for_each_plan_steady (volume_id : Z) (folder : string) (n : nat)
    (file_infos : list file_row) :
  forall (result : list rename) (w : world),
    steady w
      (snd (for_each file_infos (plan_file volume_id folder n) result w)).
Proof.
  induction file_infos as [|file file_infos IH]; intros result w; simpl.
  - apply steady_refl.
  - unfold bind.
    pose proof (plan_file_steady volume_id folder n result file w) as H.
    destruct (plan_file _ _ _ result file w) as [[result1|e] w1];
      [|exact H].
    eapply steady_trans; [exact H | apply IH].
Qed.

(** The plan is computed without a change of the database and of the file
    system, whatever its outcome. *)
Lemma preview_mass_rename_steady (volume_id : Z) (issue_id : option Z)
    (w : world) :
  steady w (snd (preview_mass_rename volume_id issue_id w)).
Proof.
  rewrite preview_mass_rename_eq.
  pose proof (files_and_folder_steady volume_id issue_id w) as H.
  destruct (files_and_folder volume_id issue_id w) as [[scope|e] w0];
    [|exact H].
  eapply steady_trans; [exact H | apply for_each_plan_steady].
Qed.

Lemma digits_mem (c : ascii) (d : string) :
  Fmt.is_digit c = false -> Fmt.all_digits d = true -> Str.mem c d = false.
Proof.
  intros Hc. induction d as [|a d IH]; simpl; [reflexivity|].
  intros H. apply andb_true_iff in H as [Ha Hd]. rewrite (IH Hd).
  destruct (Ascii.eqb_spec a c) as [->|_]; [congruence | reflexivity].
Qed.

Lemma plain_indexed (s ext : string) (n : nat) :
  plain_name s ext -> plain_name (indexed s n) ext.
Proof.
  intros (Hsep & Hdots & Hext). destruct (str_of_nat_digits n) as [_ Hd].
  unfold indexed. repeat split.
  - rewrite !PathFacts.mem_app, Hsep, (digits_mem sep _ eq_refl Hd).
    reflexivity.
  - rewrite PathFacts.all_are_app. apply andb_false_iff. right. reflexivity.
  - intros E. rewrite !PathFacts.mem_app, (Hext E),
      (digits_mem extsep _ eq_refl Hd). reflexivity.
Qed.

Lemma plan_ok_targets (volume_id : Z) (w : world) (folder : string)
    (file_infos : list file_row) :
  (forall file s,
     In file file_infos ->
     fst (suggest_name volume_id (count_issues (w_db w) volume_id)
            (issues_of_file (w_db w) (files_id file)) w) = Ok s ->
     plain_name s (snd (splitext (files_filepath file)))) ->
  forall plan,
    plan_ok volume_id w folder file_infos plan ->
    List.NoDup (map after plan).
Proof.
  intros Hplain plan. induction plan as [|r plan IH] using rev_ind;
    intros Hplan; [constructor|].
  rewrite map_app. simpl.
  assert (Hnodup : List.NoDup (map after plan)).
  { apply IH. intros earlier x later E.
    apply (Hplan earlier x (later ++ [r])). rewrite E, <- app_assoc.
    reflexivity. }
  destruct (Hplan plan r [] eq_refl)
    as (file & s & name & Hfile & Hbefore & _ & Hs & Hshape & Hafter & _ &
        Hfresh & _).
  assert (Hname : plain_name name (snd (splitext (before r)))).
  { rewrite Hbefore. destruct Hshape as [-> | (N & _ & ->)];
      [|apply plain_indexed]; apply (Hplain file s Hfile Hs). }
  apply (PathFacts.planned_path folder) in Hname as [Hname _].
  rewrite <- Hafter in Hname.
  apply List.NoDup_rev in Hnodup.
  rewrite <- (rev_involutive (map after plan ++ [after r])).
  apply List.NoDup_rev. rewrite rev_app_distr. simpl. constructor.
  - rewrite <- in_rev. intros Hin. apply in_map_iff in Hin as (r0 & E & Hr0).
    apply (Hfresh r0 Hr0). rewrite E. exact Hname.
  - exact Hnodup.
Qed.

(** X8: a plan that is computed leaves the database and the file system
    as they were. Every entry renames a file of the volume or issue that
    exists, to a path that is not its own: in the folder of destination,
    with the extension of the file, under the name generated for the
    issues the file covers, or under that name with a number; the name is
    that of no entry before it in the plan, and of no entry of the folder
    unless that entry has the name of the file itself. When the generated
    names are plain names, no two entries have the same path of
    destination. *)
Theorem preview_mass_rename_plan (volume_id : Z) (issue_id : option Z)
    (w w' : world) (plan : list rename) :
  preview_mass_rename volume_id issue_id w = (Ok plan, w') ->
  exists file_infos folder,
    fst (files_and_folder volume_id issue_id w) = Ok (file_infos, folder) /\
    steady w w' /\
    plan_ok volume_id w folder file_infos plan /\
    ((forall file s,
        In file file_infos ->
        fst (suggest_name volume_id (count_issues (w_db w) volume_id)
               (issues_of_file (w_db w) (files_id file)) w) = Ok s ->
        plain_name s (snd (splitext (files_filepath file)))) ->
     List.NoDup (map after plan)).
Proof.
  rewrite preview_mass_rename_eq.
  pose proof (files_and_folder_steady volume_id issue_id w) as Hst0.
  destruct (files_and_folder volume_id issue_id w)
    as [[[file_infos folder]|e] w0]; [|absurd_eq].
  cbn [fst snd] in *. intros Hplan.
  assert (Hn : count_issues (w_db w0) volume_id =
               count_issues (w_db w) volume_id).
  { destruct Hst0 as (-> & _). reflexivity. }
  rewrite Hn in Hplan.
  apply (for_each_planned volume_id w folder file_infos) in Hplan
    as [Hst Hok]; [|apply incl_refl | exact Hst0 |].
  - exists file_infos, folder. split; [reflexivity|]. split; [exact Hst|].
    split; [exact Hok|]. intros Hplain.
    exact (plan_ok_targets volume_id w folder file_infos Hplain plan Hok).
  - intros earlier r later E. destruct earlier; discriminate E.
Qed.

Lemma preview_mass_rename_plan_witness :
  exists plan w' file_infos folder,
    preview_mass_rename 1 None library = (Ok plan, w') /\
    fst (files_and_folder 1 None library) = Ok (file_infos, folder) /\
    steady library w' /\
    plan_ok 1 library folder file_infos plan /\
    List.NoDup (map after plan).
Proof.
  destruct (preview_mass_rename 1 None library) as [[plan|e] w'] eqn:E;
    [|vm_compute in E; discriminate E].
  destruct (preview_mass_rename_plan 1 None library w' plan E)
    as (file_infos & folder & Hscope & Hsteady & Hplan & Hdistinct).
  exists plan, w', file_infos, folder.
  repeat (split; [first [reflexivity | assumption]|]).
  apply Hdistinct. vm_compute in Hscope. injection Hscope as <- _.
  intros file s Hfile Hs.
  destruct Hfile as [<-|[<-|[<-|[]]]]; vm_compute in Hs;
    injection Hs as <-; repeat split; intros H; discriminate H.
Defined.

(** ** What a renaming writes *)

Section Written.

Variable rename_file : filesystem -> string -> string -> option filesystem.

Lemma repathed_rows_refl (befores : list string) (l : list file_row) :
  List.Forall2 (repathed_row befores) l l.
Proof. induction l; constructor; [split; auto | assumption]. Qed.

Lemma repathed_rows_set_path (a b : string) (befores : list string)
    (l : list file_row) :
  forall l',
    List.Forall2 (repathed_row befores) (map (set_path a b) l) l' ->
    List.Forall2 (repathed_row (b :: befores)) l l'.
Proof.
  induction l as [|f l IH]; intros l' H; inversion H as [|x y xs ys Hf Hl];
    subst; constructor; [|apply IH; exact Hl].
  destruct Hf as [Hid Hsame]. split.
  - rewrite Hid. apply set_path_id.
  - intros Hout.
    assert (E : set_path a b f = f).
    { unfold set_path.
      destruct (String.eqb_spec (files_filepath f) b) as [Eb|_];
        [|reflexivity].
      exfalso. apply Hout. left. symmetry. exact Eb. }
    rewrite E in Hsame. apply Hsame. intros Hin. apply Hout. right.
    exact Hin.
Qed.

(** The loop over the plan: it ends or stops at a move that fails, and
    writes paths of files only. *)
Lemma for_each_written (plan : list rename) :
  forall (w w' : world) (r : result unit),
    for_each plan (apply_rename rename_file) tt w = (r, w') ->
    (r = Ok tt \/ r = Raise MoveFailure) /\
    volumes (w_db w') = volumes (w_db w) /\
    issues (w_db w') = issues (w_db w) /\
    issues_files (w_db w') = issues_files (w_db w) /\
    root_folders (w_db w') = root_folders (w_db w) /\
    config (w_db w') = config (w_db w) /\
    w_cache w' = w_cache w /\
    List.Forall2 (repathed_row (map before plan))
      (files (w_db w)) (files (w_db w')) /\
    (plan = [] -> r = Ok tt /\ w_fs w' = w_fs w).
Proof.
  induction plan as [|x plan IH]; intros w w' r; simpl.
  - unfold ret. intros H. injection H as <- <-.
    split; [left; reflexivity|]. do 6 (split; [reflexivity|]).
    split; [apply repathed_rows_refl | auto].
  - unfold bind. rewrite apply_rename_eq.
    destruct (rename_file (w_fs w) (before x) (after x)) as [fs'|].
    + intros H. apply IH in H
        as (Hr & Hv & Hi & Hl & Hrf & Hc & Hcache & Hfiles & _).
      cbn [w_db w_cache update_filepath volumes issues issues_files
           root_folders config files] in *.
      do 7 (split; [assumption|]).
      split; [|intros H; discriminate H].
      apply (repathed_rows_set_path (after x)). exact Hfiles.
    + intros H. injection H as <- <-.
      split; [right; reflexivity|]. do 6 (split; [reflexivity|]).
      split; [apply repathed_rows_refl | intros H; discriminate H].
Qed.

(** X9: [mass_rename] writes nothing but the folder of the volume and
    paths of files. When the plan is not computed, it raises the error of
    the plan, and the database and the file system are as they were.
    Otherwise it ends, or stops with the failure of a move; the folder of
    the volume is written before any move, so that it is the new one also
    when a move fails; every row of a file keeps its id, and its path
    unless that path is the old path of an entry of the plan; and with an
    empty plan nothing is moved. The settings, the issues, their links to
    files and the root folders are never written. *)
Theorem mass_rename_frame (volume_id : Z) (issue_id : option Z)
    (w w' : world) (r : result unit) :
  mass_rename rename_file volume_id issue_id w = (r, w') ->
  settings_of w' = settings_of w /\
  issues (w_db w') = issues (w_db w) /\
  issues_files (w_db w') = issues_files (w_db w) /\
  root_folders (w_db w') = root_folders (w_db w) /\
  config (w_db w') = config (w_db w) /\
  match fst (preview_mass_rename volume_id issue_id w) with
  | Raise e => r = Raise e /\ w_db w' = w_db w /\ w_fs w' = w_fs w
  | Ok plan =>
      (r = Ok tt \/ r = Raise MoveFailure) /\
      volumes (w_db w') = volumes_after volume_id issue_id plan (w_db w) /\
      List.Forall2 (repathed_row (map before plan))
        (files (w_db w)) (files (w_db w')) /\
      (plan = [] -> r = Ok tt /\ w_fs w' = w_fs w)
  end.
Proof.
  unfold mass_rename, bind.
  pose proof (preview_mass_rename_steady volume_id issue_id w) as Hst.
  destruct (preview_mass_rename volume_id issue_id w) as [[plan|e] w1];
    cbn [fst snd] in *; destruct Hst as (Hdb & Hfs & Hsettings).
  2:{ intros H. injection H as <- <-. rewrite Hdb.
      repeat (split; [first [reflexivity | assumption]|]). assumption. }
  assert (Hfolder : exists w2,
    update_folder volume_id issue_id plan w1 = (Ok tt, w2) /\
    volumes (w_db w2) = volumes_after volume_id issue_id plan (w_db w) /\
    issues (w_db w2) = issues (w_db w) /\
    issues_files (w_db w2) = issues_files (w_db w) /\
    root_folders (w_db w2) = root_folders (w_db w) /\
    config (w_db w2) = config (w_db w) /\
    files (w_db w2) = files (w_db w) /\
    w_fs w2 = w_fs w /\ w_cache w2 = w_cache w1).
  { unfold update_folder, volumes_after. rewrite <- Hdb.
    destruct plan as [|x plan]; [|destruct (given issue_id)];
      cbn [negb]; unfold ret, bind, get_db, set_db; eexists;
      (split; [reflexivity|]); cbn; repeat split; exact Hfs. }
  destruct Hfolder as (w2 & -> & Hv2 & Hi2 & Hl2 & Hrf2 & Hc2 & Hf2 & Hfs2 &
                       Hcache2).
  intros H. apply for_each_written in H
    as (Hr & Hv & Hi & Hl & Hrf & Hc & Hcache & Hfiles & Hnil).
  split.
  { rewrite <- Hsettings. unfold settings_of.
    rewrite Hcache, Hcache2, Hc, Hc2, <- Hdb. reflexivity. }
  split; [congruence|]. split; [congruence|]. split; [congruence|].
  split; [congruence|]. split; [exact Hr|]. split; [congruence|].
  split; [rewrite <- Hf2; exact Hfiles|].
  intros E. destruct (Hnil E) as [-> Hfs']. split; [reflexivity|].
  congruence.
Qed.

End Written.

Lemma mass_rename_frame_witness :
  exists r w',
    mass_rename failing_move 1 None library = (r, w') /\
    settings_of w' = settings_of library /\
    issues (w_db w') = issues (w_db library) /\
    issues_files (w_db w') = issues_files (w_db library) /\
    root_folders (w_db w') = root_folders (w_db library) /\
    config (w_db w') = config (w_db library) /\
    match fst (preview_mass_rename 1 None library) with
    | Raise e =>
        r = Raise e /\ w_db w' = w_db library /\ w_fs w' = w_fs library
    | Ok plan =>
        (r = Ok tt \/ r = Raise MoveFailure) /\
        volumes (w_db w') = volumes_after 1 None plan (w_db library) /\
        List.Forall2 (repathed_row (map before plan))
          (files (w_db library)) (files (w_db w')) /\
        (plan = [] -> r = Ok tt /\ w_fs w' = w_fs library)
    end.
Proof.
  destruct (mass_rename failing_move 1 None library) as [r w'] eqn:E.
  exists r, w'. split; [reflexivity|].
  exact (mass_rename_frame failing_move 1 None library w' r E).
Defined.

(** ** The plan depends on what it reads only *)

Lemma steady_sym (w w' : world) : steady w w' -> steady w' w.
Proof. intros (D & F & S). repeat split; congruence. Qed.

Lemma new_name_reads (volume_id : Z) (folder : string) (n : nat)
    (result : list rename) (file : file_row) (w1 w2 : world) :
  steady w1 w2 ->
  fst (new_name volume_id folder n result file w2) =
  fst (new_name volume_id folder n result file w1).
Proof.
  intros Hst. rewrite !new_name_eq.
  pose proof (proj1 (reads_suggest_name volume_id n
                       (issues_of_file (w_db w1) (files_id file))) w1) as H1.
  pose proof (proj1 (reads_suggest_name volume_id n
                       (issues_of_file (w_db w1) (files_id file))) w2) as H2.
  pose proof (suggest_name_steady volume_id n
                (issues_of_file (w_db w1) (files_id file)) w1 w2 Hst) as Hs.
  destruct Hst as (Hdb & Hfs & _). rewrite Hdb.
  destruct (suggest_name _ _ _ w1) as [[s1|e1] w1'],
           (suggest_name _ _ _ w2) as [[s2|e2] w2'];
    cbn [fst snd] in *; try discriminate Hs; [|exact Hs].
  injection Hs as ->. rewrite !same_name_indexing_eq.
  destruct H1 as (_ & -> & _), H2 as (_ & -> & _). rewrite Hfs.
  destruct (index_name _ _); reflexivity.
Qed.

Lemma plan_file_reads (volume_id : Z) (folder : string) (n : nat)
    (result : list rename) (file : file_row) (w1 w2 : world) :
  steady w1 w2 ->
  fst (plan_file volume_id folder n result file w2) =
  fst (plan_file volume_id folder n result file w1).
Proof.
  intros Hst. rewrite !plan_file_eq.
  pose proof (new_name_reads volume_id folder n result file w1 w2 Hst) as Hn.
  destruct Hst as (_ & -> & _).
  destruct (isfile (w_fs w1) (files_filepath file)); [|reflexivity].
  destruct (new_name _ _ _ _ _ w1) as [[n1|e1] w1'],
           (new_name _ _ _ _ _ w2) as [[n2|e2] w2'];
    cbn [fst] in Hn; try discriminate Hn;
    [|injection Hn as ->; reflexivity].
  injection Hn as ->. destruct (String.eqb _ _); reflexivity.
Qed.

Lemma for_each_plan_reads (volume_id : Z) (folder : string) (n : nat)
    (file_infos : list file_row) :
  forall (result : list rename) (w1 w2 : world),
    steady w1 w2 ->
    fst (for_each file_infos (plan_file volume_id folder n) result w2) =
    fst (for_each file_infos (plan_file volume_id folder n) result w1).
Proof.
  induction file_infos as [|file file_infos IH]; intros result w1 w2 Hst;
    simpl; [reflexivity|].
  unfold bind.
  pose proof (plan_file_reads volume_id folder n result file w1 w2 Hst)
    as Hr.
  pose proof (plan_file_steady volume_id folder n result file w1) as H1.
  pose proof (plan_file_steady volume_id folder n result file w2) as H2.
  destruct (plan_file _ _ _ result file w1) as [[r1|e1] w1'],
           (plan_file _ _ _ result file w2) as [[r2|e2] w2'];
    cbn [fst snd] in *; try discriminate Hr; [|exact Hr].
  injection Hr as ->. apply IH.
  eapply steady_trans; [apply steady_sym; exact H1|].
  eapply steady_trans; [exact Hst | exact H2].
Qed.

Lemma files_and_folder_reads (volume_id : Z) (issue_id : option Z)
    (w1 w2 : world) :
  steady w1 w2 ->
  fst (files_and_folder volume_id issue_id w2) =
  fst (files_and_folder volume_id issue_id w1).
Proof.
  intros Hst. unfold files_and_folder, bind, get_db.
  pose proof (proj2 (reads_generate_volume_folder_name volume_id) w2 w1
                (steady_view _ _ Hst)) as Hname.
  destruct Hst as (-> & _ & _).
  destruct issue_id as [i|].
  - destruct (files_of_issue _ _); reflexivity.
  - destruct (root_folder_of _ _); [|reflexivity].
    destruct (generate_volume_folder_name volume_id w1) as [[n1|e1] w1'],
             (generate_volume_folder_name volume_id w2) as [[n2|e2] w2'];
      cbn [fst] in Hname; try discriminate Hname;
      [|injection Hname as ->; reflexivity].
    injection Hname as ->. reflexivity.
Qed.

(** X10: the plan depends on the database, the file system and the
    settings only, not on what the cache holds beyond them: two states
    that agree on these give the same plan, or the same error; so the
    plan computed again right after a plan is the same plan. *)
Theorem preview_mass_rename_repeatable (volume_id : Z)
    (issue_id : option Z) (w1 w2 : world) :
  steady w1 w2 ->
  fst (preview_mass_rename volume_id issue_id w2) =
    fst (preview_mass_rename volume_id issue_id w1) /\
  fst (preview_mass_rename volume_id issue_id
         (snd (preview_mass_rename volume_id issue_id w2))) =
    fst (preview_mass_rename volume_id issue_id w1).
Proof.
  assert (Hreads : forall wa wb,
    steady wa wb ->
    fst (preview_mass_rename volume_id issue_id wb) =
    fst (preview_mass_rename volume_id issue_id wa)).
  { intros wa wb Hst. rewrite !preview_mass_rename_eq.
    pose proof (files_and_folder_reads volume_id issue_id wa wb Hst) as Hs.
    pose proof (files_and_folder_steady volume_id issue_id wa) as Ha.
    pose proof (files_and_folder_steady volume_id issue_id wb) as Hb.
    destruct (files_and_folder volume_id issue_id wa) as [[sa|ea] wa'],
             (files_and_folder volume_id issue_id wb) as [[sb|eb] wb'];
      cbn [fst snd] in *; try discriminate Hs;
      [|injection Hs as ->; reflexivity].
    injection Hs as ->.
    assert (Hst' : steady wa' wb').
    { eapply steady_trans; [apply steady_sym; exact Ha|].
      eapply steady_trans; [exact Hst | exact Hb]. }
    destruct Hst' as (Hdb & Hfs & Hset). rewrite Hdb.
    apply for_each_plan_reads. repeat split; assumption. }
  intros Hst. split; [apply Hreads; exact Hst|].
  apply Hreads. eapply steady_trans; [exact Hst|].
  apply preview_mass_rename_steady.
Qed.

Lemma preview_mass_rename_repeatable_witness :
  fst (preview_mass_rename 1 None (snd (get_settings library))) =
    fst (preview_mass_rename 1 None library) /\
  fst (preview_mass_rename 1 None
         (snd (preview_mass_rename 1 None (snd (get_settings library))))) =
    fst (preview_mass_rename 1 None library).
Proof.
  apply (preview_mass_rename_repeatable 1 None library).
  rewrite get_settings_eq. repeat split.
Defined.

(** ** A renaming without files or without a root folder *)

Lemma flat_map_nil {A B : Type} (f : A -> list B) (l : list A) :
  (forall x, In x l -> f x = []) -> flat_map f l = [].
Proof.
  induction l as [|a l IH]; intros H; simpl; [reflexivity|].
  rewrite (H a (or_introl eq_refl)), IH; [reflexivity|].
  intros x Hx. apply H. right. exact Hx.
Qed.

(** X11: the plan of a volume that has no root folder, as a volume that is
    not in the database, is not computed: [fetchone()] is [None], and
    [None[0]] raises [TypeError], not [VolumeNotFound]. The plan of an
    issue that no file is linked to raises [IndexError], from
    [file_infos[0]]. [mass_rename] raises the same, and writes nothing. *)
Theorem preview_mass_rename_no_scope (volume_id : Z) (w : world) :
  ((forall rf v,
      In rf (root_folders (w_db w)) -> In v (volumes (w_db w)) ->
      volumes_id v = volume_id ->
      volumes_root_folder v <> root_folders_id rf) ->
   preview_mass_rename volume_id None w = (Raise TypeError, w) /\
   forall rename_file,
     mass_rename rename_file volume_id None w = (Raise TypeError, w)) /\
  (forall issue_id,
     (forall f l,
        In f (files (w_db w)) -> In l (issues_files (w_db w)) ->
        issues_files_issue_id l = issue_id ->
        issues_files_file_id l <> files_id f) ->
     preview_mass_rename volume_id (Some issue_id) w = (Raise IndexError, w)
     /\
     forall rename_file,
       mass_rename rename_file volume_id (Some issue_id) w =
         (Raise IndexError, w)).
Proof.
  split.
  - intros Hnone.
    assert (Hroot : root_folder_of (w_db w) volume_id = None).
    { unfold root_folder_of. rewrite flat_map_nil; [reflexivity|].
      intros rf Hrf. apply flat_map_nil. intros v Hv.
      destruct (Z.eqb_spec (volumes_root_folder v) (root_folders_id rf))
        as [Eroot|_]; [|reflexivity].
      destruct (Z.eqb_spec (volumes_id v) volume_id) as [Eid|_];
        [|reflexivity].
      exfalso. exact (Hnone rf v Hrf Hv Eid Eroot). }
    assert (Hplan : preview_mass_rename volume_id None w =
                    (Raise TypeError, w)).
    { unfold preview_mass_rename, files_and_folder, bind, get_db.
      rewrite Hroot. reflexivity. }
    split; [exact Hplan|]. intros rename_file.
    unfold mass_rename, bind. rewrite Hplan. reflexivity.
  - intros issue_id Hnone.
    assert (Hfiles : files_of_issue (w_db w) issue_id = []).
    { unfold files_of_issue. apply flat_map_nil. intros f Hf.
      apply flat_map_nil. intros l Hl.
      destruct (Z.eqb_spec (issues_files_file_id l) (files_id f))
        as [Efile|_]; [|reflexivity].
      destruct (Z.eqb_spec (issues_files_issue_id l) issue_id) as [Eid|_];
        [|reflexivity].
      exfalso. exact (Hnone f l Hf Hl Eid Efile). }
    assert (Hplan : preview_mass_rename volume_id (Some issue_id) w =
                    (Raise IndexError, w)).
    { unfold preview_mass_rename, files_and_folder, bind, get_db.
      rewrite Hfiles. reflexivity. }
    split; [exact Hplan|]. intros rename_file.
    unfold mass_rename, bind. rewrite Hplan. reflexivity.
Qed.

(** ** The names once files are renamed *)

Lemma volumes_after_forget (volume_id : Z) (issue_id : option Z)
    (plan : list rename) (db : database) :
  map forget_folder (volumes_after volume_id issue_id plan db) =
  map forget_folder (volumes db).
Proof.
  unfold volumes_after.
  destruct plan as [|r plan]; [reflexivity|].
  destruct (given issue_id); [reflexivity|].
  cbn [update_volume_folder volumes]. rewrite map_map. apply map_ext.
  intros v. destruct (Z.eqb (volumes_id v) volume_id); reflexivity.
Qed.

Section Renamed.

Variable rename_file : filesystem -> string -> string -> option filesystem.

(** What the generation of names reads is what it was, whatever the
    outcome of the renaming. *)
Lemma mass_rename_view (volume_id : Z) (issue_id : option Z)
    (w w' : world) (r : result unit) :
  mass_rename rename_file volume_id issue_id w = (r, w') ->
  naming_view w' = naming_view w.
Proof.
  unfold mass_rename, bind.
  pose proof (preview_mass_rename_steady volume_id issue_id w) as Hst.
  destruct (preview_mass_rename volume_id issue_id w) as [[plan|e] w1];
    cbn [fst snd] in *.
  2:{ intros H. injection H as _ <-. apply steady_view. exact Hst. }
  rewrite <- (steady_view _ _ Hst).
  assert (Hfolder : exists w2,
    update_folder volume_id issue_id plan w1 = (Ok tt, w2) /\
    naming_view w2 = naming_view w1).
  { unfold update_folder.
    destruct plan as [|x plan]; [|destruct (given issue_id) eqn:Hgiven];
      cbn [negb]; unfold ret, bind, get_db, set_db; eexists;
      (split; [reflexivity|]); try reflexivity.
    unfold naming_view, settings_of. cbn. f_equal. f_equal.
    apply (volumes_after_forget volume_id None (x :: plan)). }
  destruct Hfolder as (w2 & -> & <-).
  intros H. apply for_each_written in H
    as (_ & Hv & Hi & _ & _ & Hc & Hcache & _).
  unfold naming_view, settings_of. rewrite Hv, Hi, Hc, Hcache. reflexivity.
Qed.

(** X12: the names that are generated are the same after a renaming as
    before it, whatever its outcome: the folder of a volume, the name of
    a book, of an issue and of a range of issues depend on nothing that
    [mass_rename] writes. *)
Theorem names_after_mass_rename (volume_id : Z) (issue_id : option Z)
    (w w' : world) (r : result unit) :
  mass_rename rename_file volume_id issue_id w = (r, w') ->
  forall (volume issue : Z) (first last : Q),
    fst (generate_volume_folder_name volume w') =
      fst (generate_volume_folder_name volume w) /\
    fst (generate_tpb_name volume w') = fst (generate_tpb_name volume w) /\
    fst (generate_issue_name volume issue w') =
      fst (generate_issue_name volume issue w) /\
    fst (generate_issue_range_name volume first last w') =
      fst (generate_issue_range_name volume first last w).
Proof.
  intros H volume issue first last.
  apply mass_rename_view in H.
  split; [apply (proj2 (reads_generate_volume_folder_name volume) _ _ H)|].
  split; [apply (proj2 (reads_generate_tpb_name volume) _ _ H)|].
  split; [apply (proj2 (reads_generate_issue_name volume issue) _ _ H)|].
  apply (proj2 (reads_generate_issue_range_name volume first last) _ _ H).
Qed.

End Renamed.

Lemma names_after_mass_rename_witness :
  exists r w',
    mass_rename Files.rename_file 1 None library = (r, w') /\
    forall (volume issue : Z) (first last : Q),
      fst (generate_volume_folder_name volume w') =
        fst (generate_volume_folder_name volume library) /\
      fst (generate_tpb_name volume w') =
        fst (generate_tpb_name volume library) /\
      fst (generate_issue_name volume issue w') =
        fst (generate_issue_name volume issue library) /\
      fst (generate_issue_range_name volume first last w') =
        fst (generate_issue_range_name volume first last library).
Proof.
  destruct (mass_rename Files.rename_file 1 None library) as [r w'] eqn:E.
  exists r, w'. split; [reflexivity|].
  exact (names_after_mass_rename Files.rename_file 1 None library w' r E).
Defined.

(** ** The settings: what is accepted *)

Section SettingsFacts.

Variable temp_downloads : string.
Variable database_version : pyval.

Lemma is_default_key_In (key : string) :
  Settings.is_default_key temp_downloads database_version key = true <->
  In key (map fst (Settings.default_settings temp_downloads
                     database_version)).
Proof. apply str_in_In. Qed.

(** A setting passes the tests of [set_settings] exactly when it is valid;
    the key [api_key] is no default setting and never passes. *)
Lemma check_setting_valid (fs : filesystem) (key : string)
    (value : pyval) :
  Settings.check_setting temp_downloads database_version fs key value = None
  <->
  valid_setting
    (map fst (Settings.default_settings temp_downloads database_version))
    fs key value.
Proof.
  unfold valid_setting, Settings.check_setting.
  destruct (String.eqb_spec key "port") as [->|Hport].
  { cbn - [Settings.isdigit]. split.
    - destruct value as [| |s]; try absurd_eq. cbn - [Settings.isdigit].
      destruct (Settings.isdigit s) eqn:E; [|absurd_eq]. intros _.
      split; [tauto|]. split; [eauto|].
      repeat split; other_key.
    - intros (_ & H & _). destruct (H eq_refl) as (s & -> & E).
      cbn - [Settings.isdigit]. rewrite E. reflexivity. }
  destruct (String.eqb_spec key "api_key") as [->|Hapi].
  { split; [absurd_eq|]. intros (H & _). simpl in H.
    repeat (destruct H as [H|H]; [discriminate H|]). contradiction. }
  destruct (String.eqb_spec key "download_folder") as [->|Hfolder].
  { cbn - [isdir]. split.
    - destruct value as [| |s]; try absurd_eq. cbn - [isdir].
      destruct (isdir fs s) eqn:E; [|absurd_eq]. intros _.
      split; [tauto|]. split; [other_key|]. split; [eauto|].
      repeat split; other_key.
    - intros (_ & _ & H & _). destruct (H eq_refl) as (s & -> & E).
      cbn - [isdir]. rewrite E. reflexivity. }
  destruct (String.eqb_spec key "volume_folder_naming") as [->|Hvolume];
    [|destruct (String.eqb_spec key "file_naming") as [->|Hfile];
      [|destruct (String.eqb_spec key "file_naming_tpb") as [->|Htpb]]].
  1-3: cbn - [check_format]; (split;
    [ destruct value as [| |s]; try absurd_eq; cbn - [check_format];
      destruct (check_format s _) as [[]|] eqn:E; [|absurd_eq]; intros _;
      split; [tauto|]; repeat split; try other_key; eauto
    | intros (_ & _ & _ & H & _);
      destruct (H ltac:(tauto)) as (s & -> & E);
      cbn - [check_format]; rewrite E; reflexivity ]).
  cbn [orb].
  destruct (String.eqb_spec key "log_level") as [->|Hlevel].
  { cbn. split.
    - destruct value as [| |s]; try absurd_eq. cbn.
      destruct (String.eqb_spec s "info") as [->|Hinfo].
      + intros _. split; [tauto|]. repeat split; try other_key. auto.
      + destruct (String.eqb_spec s "debug") as [->|Hdebug]; [|absurd_eq].
        intros _. split; [tauto|]. repeat split; try other_key. auto.
    - intros (_ & _ & _ & _ & H). destruct (H eq_refl) as [-> | ->];
        reflexivity. }
  cbn [andb].
  destruct (Settings.is_default_key temp_downloads database_version key)
    eqn:Hkey; cbn [negb].
  - apply is_default_key_In in Hkey. split; [|reflexivity]. intros _.
    split; [exact Hkey|]. repeat split; intros H; try contradiction.
    destruct H as [H|[H|H]]; contradiction.
  - split; [absurd_eq|]. intros (H & _). apply is_default_key_In in H.
    congruence.
Qed.

Lemma check_settings_None (fs : filesystem)
    (settings : list (string * pyval)) :
  Settings.check_settings temp_downloads database_version fs settings = None
  <->
  List.Forall
    (fun c => Settings.check_setting temp_downloads database_version fs
                (fst c) (snd c) = None) settings.
Proof.
  induction settings as [|[key value] settings IH]; simpl.
  - split; [constructor | reflexivity].
  - destruct (Settings.check_setting _ _ fs key value) as [e|] eqn:E.
    + split; [absurd_eq|]. intros H. inversion H as [|c l Hc Hl]; subst.
      simpl in Hc. congruence.
    + rewrite IH. split.
      * intros H. constructor; [exact E | exact H].
      * intros H. inversion H; assumption.
Qed.

Lemma check_settings_valid (fs : filesystem)
    (settings : list (string * pyval)) :
  Settings.check_settings temp_downloads database_version fs settings = None
  <->
  List.Forall
    (fun c => valid_setting
                (map fst (Settings.default_settings temp_downloads
                            database_version))
                fs (fst c) (snd c)) settings.
Proof.
  rewrite check_settings_None. split; intros H;
    (eapply List.Forall_impl; [|exact H]); intros c Hc;
    apply check_setting_valid; exact Hc.
Qed.

(** ** The settings: what is written *)

Lemma executemany_tables (changes : list (string * pyval)) (db : database) :
  volumes (Settings.executemany changes db) = volumes db /\
  issues (Settings.executemany changes db) = issues db /\
  files (Settings.executemany changes db) = files db /\
  issues_files (Settings.executemany changes db) = issues_files db /\
  root_folders (Settings.executemany changes db) = root_folders db.
Proof.
  revert db. induction changes as [|c changes IH]; intros db.
  - repeat split.
  - unfold Settings.executemany. simpl.
    fold (Settings.executemany changes
            (Settings.update_config (snd c) (fst c) db)).
    destruct (IH (Settings.update_config (snd c) (fst c) db))
      as (H1 & H2 & H3 & H4 & H5).
    rewrite H1, H2, H3, H4, H5. repeat split.
Qed.

Lemma config_executemany (changes : list (string * pyval)) (db : database) :
  config (Settings.executemany changes db) =
  map (written changes) (config db).
Proof.
  revert db. induction changes as [|c changes IH]; intros db.
  - simpl. symmetry. apply map_id.
  - unfold Settings.executemany. simpl.
    fold (Settings.executemany changes
            (Settings.update_config (snd c) (fst c) db)).
    rewrite IH. simpl. rewrite map_map. reflexivity.
Qed.

Lemma written_fst (changes : list (string * pyval)) :
  forall row, fst (written changes row) = fst row.
Proof.
  induction changes as [|c changes IH]; intros row; [reflexivity|].
  unfold written. simpl. fold (written changes).
  rewrite IH. destruct (String.eqb (fst row) (fst c)); reflexivity.
Qed.

Lemma written_other (changes : list (string * pyval)) :
  forall row, ~ In (fst row) (map fst changes) -> written changes row = row.
Proof.
  induction changes as [|c changes IH]; intros row Hout; [reflexivity|].
  unfold written. simpl. fold (written changes).
  destruct (String.eqb_spec (fst row) (fst c)) as [E|_].
  - exfalso. apply Hout. left. symmetry. exact E.
  - apply IH. intros H. apply Hout. right. exact H.
Qed.

Lemma written_key (changes : list (string * pyval)) (key : string)
    (value : pyval) :
  List.NoDup (map fst changes) -> In (key, value) changes ->
  forall row, fst row = key -> written changes row = (key, value).
Proof.
  induction changes as [|c changes IH]; intros Hnodup Hin row Hrow;
    [contradiction|].
  simpl in Hnodup. inversion Hnodup as [|k l Hk Hl]; subst k l.
  unfold written. simpl. fold (written changes).
  destruct Hin as [-> | Hin].
  - simpl. rewrite Hrow, String.eqb_refl. apply written_other. exact Hk.
  - destruct (String.eqb_spec (fst row) (fst c)) as [E|_].
    + exfalso. apply Hk. rewrite <- E, Hrow.
      change key with (fst (key, value)). apply in_map. exact Hin.
    + apply IH; assumption.
Qed.

Lemma fold_insert_lookup (key : string) (value : pyval)
    (rows : list (string * pyval)) :
  (forall row, In row rows -> fst row = key -> snd row = value) ->
  forall m : gmap string pyval,
    m !! key = Some value \/ In key (map fst rows) ->
    fold_left (fun m kv => <[fst kv := snd kv]> m) rows m !! key =
      Some value.
Proof.
  induction rows as [|row rows IH]; intros Hall m Hm; simpl.
  - destruct Hm as [Hm|[]]. exact Hm.
  - apply IH; [intros r Hr; apply Hall; right; exact Hr|].
    destruct (String.eqb_spec (fst row) key) as [E|Hne].
    + left. rewrite E, lookup_insert_eq.
      f_equal. apply Hall; [left; reflexivity | exact E].
    + rewrite lookup_insert_ne by exact Hne.
      destruct Hm as [Hm|[Hm|Hm]]; [left; exact Hm | contradiction |].
      right. exact Hm.
Qed.

Lemma dict_of_rows_lookup (key : string) (value : pyval)
    (rows : list (string * pyval)) :
  (forall row, In row rows -> fst row = key -> snd row = value) ->
  In key (map fst rows) ->
  dict_of_rows rows !! key = Some value.
Proof.
  intros Hall Hin. apply fold_insert_lookup; [exact Hall | right; exact Hin].
Qed.

Lemma get_settings_true : Settings.get_settings true = get_settings.
Proof. reflexivity. Qed.

(** The state once the settings are read again after a write. *)
Lemma get_settings_false (w : world) :
  Settings.get_settings false w =
  (Ok (dict_of_rows (config (w_db w)) ∪ w_cache w),
   {| w_db := w_db w; w_fs := w_fs w;
      w_cache := dict_of_rows (config (w_db w)) ∪ w_cache w |}).
Proof. reflexivity. Qed.




Lemma settings_of_refreshed (db : database) (fs : filesystem)
    (cache : gmap string pyval) :
  settings_of {| w_db := db; w_fs := fs;
                 w_cache := dict_of_rows (config db) ∪ cache |} =
  dict_of_rows (config db) ∪ cache.
Proof.
  unfold settings_of. simpl.
  destruct (decide (dict_of_rows (config db) ∪ cache = ∅)); [|reflexivity].
  rewrite (assoc_L (∪)), (idemp_L (∪)). reflexivity.
Qed.

Lemma written_rows_lookup (changes rows : list (string * pyval))
    (key : string) (value : pyval) :
  List.NoDup (map fst changes) -> In (key, value) changes ->
  In key (map fst rows) ->
  dict_of_rows (map (written changes) rows) !! key = Some value.
Proof.
  intros Hnodup Hin Hrow. apply dict_of_rows_lookup.
  - intros row Hr Hk. apply in_map_iff in Hr as (r0 & <- & _).
    rewrite written_fst in Hk.
    rewrite (written_key changes key value Hnodup Hin r0 Hk). reflexivity.
  - rewrite map_map.
    rewrite (map_ext _ fst (fun r => written_fst changes r)). exact Hrow.
Qed.

(** X14: the settings that [set_settings] returns are the new cache, and
    what the generation of names reads from then on; a setting that was
    given, and that has a row in [config], is returned with the value
    given. *)
Theorem set_settings_read_back (settings : list (string * pyval))
    (w w' : world) (result : gmap string pyval) :
  Settings.set_settings temp_downloads database_version settings w =
    (Settings.Done result, w') ->
  List.NoDup (map fst settings) ->
  w_cache w' = result /\
  get_settings w' = (Ok result, w') /\
  forall key value,
    In (key, value) settings ->
    In key (map fst (config (w_db w))) ->
    result !! key = Some value.
Proof.
  unfold Settings.set_settings.
  destruct (Settings.check_settings _ _ (w_fs w) settings);
    [intros H; discriminate H|].
  destruct (forallb _ settings); [|intros H; discriminate H].
  destruct settings as [|c settings].
  - rewrite get_settings_true, get_settings_eq. simpl.
    intros H _. injection H as <- <-. split; [reflexivity|].
    split; [|intros key value []].
    rewrite get_settings_eq, settings_of_cached. reflexivity.
  - cbv beta iota. set (changes := c :: settings) in *.
    rewrite get_settings_false. cbn [Settings.of_M].
    intros H Hnodup. injection H as <- <-. split; [reflexivity|].
    split.
    + rewrite get_settings_eq. cbn [w_db w_fs Settings.set_config].
      rewrite settings_of_refreshed. reflexivity.
    + intros key value Hin Hrow. apply lookup_union_Some_l.
      cbn [w_db Settings.set_config].
      change (Settings.executemany settings
                (Settings.update_config (snd c) (fst c) (w_db w)))
        with (Settings.executemany changes (w_db w)).
      rewrite (config_executemany changes (w_db w)).
      apply written_rows_lookup; assumption.
Qed.

(** X15: [set_settings] writes the table [config] only, and there only the
    values of the keys that are given: the file system and the other
    tables are as they were, no row is added or removed, and the rows of
    the other keys are as they were. *)
Theorem set_settings_frame (settings : list (string * pyval))
    (w w' : world) (r : Settings.outcome (gmap string pyval)) :
  Settings.set_settings temp_downloads database_version settings w =
    (r, w') ->
  w_fs w' = w_fs w /\
  volumes (w_db w') = volumes (w_db w) /\
  issues (w_db w') = issues (w_db w) /\
  files (w_db w') = files (w_db w) /\
  issues_files (w_db w') = issues_files (w_db w) /\
  root_folders (w_db w') = root_folders (w_db w) /\
  map fst (config (w_db w')) = map fst (config (w_db w)) /\
  List.Forall2
    (fun row row' => ~ In (fst row) (map fst settings) -> row' = row)
    (config (w_db w)) (config (w_db w')).
Proof.
  assert (Hsame : List.Forall2
            (fun row row' : string * pyval =>
               ~ In (fst row) (map fst settings) -> row' = row)
            (config (w_db w)) (config (w_db w))).
  { induction (config (w_db w)); constructor; auto. }
  assert (Hwritten :
    w_fs w = w_fs w /\
    volumes (Settings.executemany settings (w_db w)) = volumes (w_db w) /\
    issues (Settings.executemany settings (w_db w)) = issues (w_db w) /\
    files (Settings.executemany settings (w_db w)) = files (w_db w) /\
    issues_files (Settings.executemany settings (w_db w)) =
      issues_files (w_db w) /\
    root_folders (Settings.executemany settings (w_db w)) =
      root_folders (w_db w) /\
    map fst (config (Settings.executemany settings (w_db w))) =
      map fst (config (w_db w)) /\
    List.Forall2
      (fun row row' => ~ In (fst row) (map fst settings) -> row' = row)
      (config (w_db w)) (config (Settings.executemany settings (w_db w)))).
  { destruct (executemany_tables settings (w_db w))
      as (H1 & H2 & H3 & H4 & H5).
    repeat (split; [first [assumption | reflexivity]|]).
    rewrite config_executemany. split.
    - rewrite map_map. apply map_ext. apply written_fst.
    - clear Hsame. induction (config (w_db w)) as [|row rows IH];
        simpl; constructor; [|exact IH].
      apply written_other. }
  unfold Settings.set_settings.
  destruct (Settings.check_settings _ _ (w_fs w) settings).
  { intros H. injection H as _ <-. repeat split. exact Hsame. }
  destruct settings as [|c settings].
  - rewrite get_settings_true, get_settings_eq. simpl.
    intros H. injection H as _ <-. repeat split. exact Hsame.
  - rewrite get_settings_false.
    destruct (forallb _ (c :: settings)); cbn [Settings.of_M snd];
      intros H; injection H as _ <-; exact Hwritten.
Qed.

(** ** The settings: one key written *)

Lemma find_key_none (rows : list (string * pyval)) (key : string) :
  List.find (fun row => String.eqb (fst row) key) rows = None <->
  ~ In key (map fst rows).
Proof.
  induction rows as [|row rows IH]; simpl; [tauto|].
  destruct (String.eqb_spec (fst row) key) as [E|Hne].
  - split; [absurd_eq | intros H; exfalso; apply H; left; exact E].
  - rewrite IH. tauto.
Qed.

Lemma find_key_some (rows : list (string * pyval)) (key : string)
    (value : pyval) :
  List.NoDup (map fst rows) -> In (key, value) rows ->
  List.find (fun row => String.eqb (fst row) key) rows = Some (key, value).
Proof.
  induction rows as [|row rows IH]; simpl; intros Hnodup Hin;
    [contradiction|].
  inversion Hnodup as [|k l Hk Hl]; subst k l.
  destruct Hin as [-> | Hin].
  - simpl. rewrite String.eqb_refl. reflexivity.
  - destruct (String.eqb_spec (fst row) key) as [E|_]; [|auto].
    exfalso. apply Hk. rewrite E. change key with (fst (key, value)).
    apply in_map. exact Hin.
Qed.

Lemma default_settings_NoDup :
  List.NoDup (map fst (Settings.default_settings temp_downloads
                         database_version)).
Proof.
  simpl. repeat (constructor; [simpl; intuition discriminate|]).
  constructor.
Qed.

(** One key written, and the settings read again. *)
Lemma update_config_read_back (key : string) (value : pyval) (w : world) :
  exists result w',
    Settings.of_M
      (Settings.get_settings false
         (Settings.set_config
            (Settings.update_config value key (w_db w)) w)) =
      (Settings.Done result, w') /\
    w_fs w' = w_fs w /\
    config (w_db w') =
      map (fun row => if String.eqb (fst row) key then (fst row, value)
                      else row) (config (w_db w)) /\
    w_cache w' = result /\
    get_settings w' = (Ok result, w') /\
    (In key (map fst (config (w_db w))) -> result !! key = Some value).
Proof.
  rewrite get_settings_false. cbn [Settings.of_M]. eexists _, _.
  split; [reflexivity|]. cbn [w_db w_fs w_cache Settings.set_config].
  split; [reflexivity|]. split; [reflexivity|]. split; [reflexivity|].
  split.
  - rewrite get_settings_eq. cbn [w_db w_fs].
    rewrite settings_of_refreshed. reflexivity.
  - intros Hrow. apply lookup_union_Some_l.
    apply (written_rows_lookup [(key, value)]);
      [repeat constructor; simpl; tauto | left; reflexivity | exact Hrow].
Qed.

(** X16: [reset_setting] raises [InvalidSettingKey], and leaves the state
    as it was, exactly for a key that is no default setting. For a
    default setting it writes the default value in the rows of the key,
    and in no other row, and returns the settings read again, which are
    the new cache: the key has its default value in them when [config]
    has a row for it. *)
Theorem reset_setting_outcomes (key : string) (w : world) :
  (Settings.reset_setting temp_downloads database_version key w =
     (Settings.Failed (Settings.InvalidSettingKey key), w) <->
   ~ In key (map fst (Settings.default_settings temp_downloads
                        database_version))) /\
  (forall value,
     In (key, value)
        (Settings.default_settings temp_downloads database_version) ->
     exists result w',
       Settings.reset_setting temp_downloads database_version key w =
         (Settings.Done result, w') /\
       w_fs w' = w_fs w /\
       config (w_db w') =
         map (fun row => if String.eqb (fst row) key then (fst row, value)
                         else row) (config (w_db w)) /\
       w_cache w' = result /\
       get_settings w' = (Ok result, w') /\
       (In key (map fst (config (w_db w))) -> result !! key = Some value)).
Proof.
  unfold Settings.reset_setting, Settings.default_of. split.
  - destruct (List.find _ _) as [row|] eqn:Hfind; cbn [option_map].
    + split.
      * rewrite get_settings_false. intros H. discriminate H.
      * intros Hout. apply find_key_none in Hout. congruence.
    + apply find_key_none in Hfind. tauto.
  - intros value Hin.
    rewrite (find_key_some _ key value default_settings_NoDup Hin).
    cbn [option_map snd]. apply update_config_read_back.
Qed.

(** ** The settings: the api key *)

Lemma hex_digit_In (n : nat) :
  In (Settings.hex_digit n) (list_ascii_of_string "0123456789abcdef").
Proof.
  unfold Settings.hex_digit.
  destruct (Nat.lt_ge_cases n
              (List.length (list_ascii_of_string "0123456789abcdef")))
    as [Hlt|Hge].
  - apply nth_In. exact Hlt.
  - rewrite nth_overflow by exact Hge. left. reflexivity.
Qed.

(** X17: [generate_api_key] writes the key as two hexadecimal digits for
    each random byte, in lower case, and returns the settings read again:
    the key is in them when [config] has a row for it. It is the one way
    to the key: [set_settings] raises, and leaves the state as it was,
    when [api_key] is among the settings. *)
Theorem generate_api_key_stored (random : list ascii) (w : world) :
  String.length (Settings.hex random) = 2 * List.length random /\
  List.Forall (fun c => In c (list_ascii_of_string "0123456789abcdef"))
    (list_ascii_of_string (Settings.hex random)) /\
  (exists result w',
     Settings.generate_api_key random w = (Settings.Done result, w') /\
     w_fs w' = w_fs w /\
     config (w_db w') =
       map (fun row => if String.eqb (fst row) "api_key"
                       then (fst row, PStr (Settings.hex random)) else row)
           (config (w_db w)) /\
     w_cache w' = result /\
     get_settings w' = (Ok result, w') /\
     (In "api_key" (map fst (config (w_db w))) ->
      result !! "api_key" = Some (PStr (Settings.hex random)))) /\
  (forall settings value,
     In ("api_key", value) settings ->
     exists e,
       Settings.set_settings temp_downloads database_version settings w =
         (Settings.Failed e, w)).
Proof.
  split; [|split; [|split]].
  - induction random as [|b random IH]; simpl; [reflexivity|].
    rewrite IH. lia.
  - induction random as [|b random IH]; simpl; [constructor|].
    constructor; [apply hex_digit_In|].
    constructor; [apply hex_digit_In | exact IH].
  - apply update_config_read_back.
  - intros settings value Hin. unfold Settings.set_settings.
    destruct (Settings.check_settings _ _ (w_fs w) settings) as [e|] eqn:E;
      [eauto|].
    exfalso. apply check_settings_valid in E.
    rewrite List.Forall_forall in E. destruct (E _ Hin) as [Hkey _].
    simpl in Hkey. intuition discriminate.
Qed.

(** ** The settings: the cache *)

Lemma NoDup_fst_unique (rows : list (string * pyval)) (key : string)
    (value : pyval) :
  List.NoDup (map fst rows) -> In (key, value) rows ->
  forall row, In row rows -> fst row = key -> snd row = value.
Proof.
  induction rows as [|r rows IH]; simpl; intros Hnodup Hin row Hrow Hkey;
    [contradiction|].
  inversion Hnodup as [|k l Hk Hl]; subst k l.
  destruct Hin as [-> | Hin], Hrow as [<- | Hrow].
  - reflexivity.
  - exfalso. apply Hk. simpl. rewrite <- Hkey. apply in_map. exact Hrow.
  - exfalso. apply Hk. rewrite Hkey. change key with (fst (key, value)).
    apply in_map. exact Hin.
  - eapply IH; eauto.
Qed.

(** X18: the settings that [get_settings] returns become the cache, and the
    database and the file system are left as they are. A read with the
    cache then returns the same settings, also once [config] has changed,
    unless they are empty. No key of the cache is ever dropped; and a
    read without the cache returns the value of [config] for every key
    of [config]. *)
Theorem get_settings_cache (use_cache : bool) (w w1 : world)
    (result : gmap string pyval) :
  Settings.get_settings use_cache w = (Ok result, w1) ->
  w_db w1 = w_db w /\ w_fs w1 = w_fs w /\ w_cache w1 = result /\
  Settings.get_settings true w1 = (Ok result, w1) /\
  (result <> ∅ ->
   forall db, fst (Settings.get_settings true (Settings.set_config db w1)) =
              Ok result) /\
  (forall key, is_Some (w_cache w !! key) -> is_Some (result !! key)) /\
  (use_cache = false -> List.NoDup (map fst (config (w_db w))) ->
   forall key value,
     In (key, value) (config (w_db w)) -> result !! key = Some value).
Proof.
  intros Hget.
  assert (Hw1 : w1 = {| w_db := w_db w; w_fs := w_fs w; w_cache := result |}
                /\ (result = settings_of w \/
                    result = dict_of_rows (config (w_db w)) ∪ w_cache w)).
  { destruct use_cache.
    - rewrite get_settings_true, get_settings_eq in Hget.
      injection Hget as <- <-. auto.
    - rewrite get_settings_false in Hget. injection Hget as <- <-. auto. }
  destruct Hw1 as [-> Hresult]. cbn [w_db w_fs w_cache].
  repeat (split; [reflexivity|]).
  assert (Hagain : settings_of
                     {| w_db := w_db w; w_fs := w_fs w; w_cache := result |}
                   = result).
  { destruct Hresult as [-> | ->];
      [apply settings_of_cached | apply settings_of_refreshed]. }
  split; [|split; [|split]].
  - rewrite get_settings_true, get_settings_eq. cbn [w_db w_fs].
    rewrite Hagain. reflexivity.
  - intros Hne db. rewrite get_settings_true, get_settings_eq.
    cbn [fst]. unfold settings_of. cbn [w_cache Settings.set_config].
    destruct (decide (result = ∅)); [contradiction | reflexivity].
  - intros key [v Hv]. destruct Hresult as [-> | ->].
    + unfold settings_of. destruct (decide (w_cache w = ∅)) as [E|_];
        [rewrite E in Hv; rewrite lookup_empty in Hv; discriminate Hv|].
      eauto.
    + destruct (dict_of_rows (config (w_db w)) !! key) as [v'|] eqn:E.
      * exists v'. apply lookup_union_Some_l. exact E.
      * exists v. rewrite lookup_union_r by exact E. exact Hv.
  - intros -> Hnodup key value Hin.
    rewrite get_settings_false in Hget. injection Hget as <-.
    apply lookup_union_Some_l. apply dict_of_rows_lookup.
    + apply NoDup_fst_unique; assumption.
    + change key with (fst (key, value)). apply in_map. exact Hin.
Qed.

(** ** The settings and the names *)



End SettingsFacts.

Lemma set_settings_read_back_witness :
  exists result w',
    Settings.set_settings "" PNone
      [("file_naming", PStr "{series_name} #{issue_number}");
       ("log_level", PStr "debug")] library = (Settings.Done result, w') /\
    w_cache w' = result /\
    get_settings w' = (Ok result, w') /\
    forall key value,
      In (key, value)
         [("file_naming", PStr "{series_name} #{issue_number}");
          ("log_level", PStr "debug")] ->
      In key (map fst (config (w_db library))) ->
      result !! key = Some value.
Proof.
  destruct (Settings.set_settings "" PNone
              [("file_naming", PStr "{series_name} #{issue_number}");
               ("log_level", PStr "debug")] library)
    as [[result|e] w'] eqn:E; [|vm_compute in E; discriminate E].
  exists result, w'. split; [reflexivity|].
  apply (set_settings_read_back "" PNone _ library w' result E).
  repeat (constructor; [simpl; intuition discriminate|]). constructor.
Defined.

Lemma set_settings_frame_witness :
  exists r w',
    Settings.set_settings "" PNone [("host", PInt 0)] library = (r, w') /\
    w_fs w' = w_fs library /\
    volumes (w_db w') = volumes (w_db library) /\
    issues (w_db w') = issues (w_db library) /\
    files (w_db w') = files (w_db library) /\
    issues_files (w_db w') = issues_files (w_db library) /\
    root_folders (w_db w') = root_folders (w_db library) /\
    map fst (config (w_db w')) = map fst (config (w_db library)) /\
    List.Forall2
      (fun row row' => ~ In (fst row) (map fst [("host", PInt 0)]) ->
                       row' = row)
      (config (w_db library)) (config (w_db w')).
Proof.
  destruct (Settings.set_settings "" PNone [("host", PInt 0)] library)
    as [r w'] eqn:E.
  exists r, w'. split; [reflexivity|].
  exact (set_settings_frame "" PNone _ library w' r E).
Defined.

Lemma get_settings_cache_witness :
  exists result w1,
    Settings.get_settings false library = (Ok result, w1) /\
    w_db w1 = w_db library /\ w_fs w1 = w_fs library /\
    w_cache w1 = result /\
    Settings.get_settings true w1 = (Ok result, w1) /\
    (result <> ∅ ->
     forall db,
       fst (Settings.get_settings true (Settings.set_config db w1)) =
       Ok result) /\
    (forall key, is_Some (w_cache library !! key) ->
                 is_Some (result !! key)) /\
    (false = false -> List.NoDup (map fst (config (w_db library))) ->
     forall key value,
       In (key, value) (config (w_db library)) ->
       result !! key = Some value).
Proof.
  eexists _, _. split; [reflexivity|].
  apply (get_settings_cache false library). reflexivity.
Defined.

